(** * DistilledJudge: the preference reformatter and the benchmark scorer

    A shallow embedding of [distill/distill_judge_with_rm.py] and of the
    scoring loop of [eval/rewardbench/__main__.py], followed by the
    properties their specification states about them. *)

From Stdlib Require Import String Ascii DecimalString PrimFloat.
From Stdlib Require Import NArith ZArith QArith Bool Lia List.
From Stdlib Require FloatOps FloatAxioms SpecFloat.
Import ListNotations.

Close Scope Q_scope.
Open Scope nat_scope.
Open Scope list_scope.

Set Implicit Arguments.

(** ** Python strings

    A Python [str] is a sequence of Unicode code points.  Text is kept as
    the list of its code points, so that [str.strip] and the regular
    expressions see the characters Python sees. *)

Definition char := N.
Definition pystr := list char.

Definition lit (s : string) : pystr :=
  map N_of_ascii (list_ascii_of_string s).

Definition newline : char := 10%N.
Definition dquote : char := 34%N.

Definition char_eqb (a b : char) : bool := N.eqb a b.

Fixpoint pystr_eqb (s t : pystr) : bool :=
  match s, t with
  | [], [] => true
  | a :: s', b :: t' => char_eqb a b && pystr_eqb s' t'
  | _, _ => false
  end.

(** [str.isspace] on one character: the code points Python's [strip]
    removes. *)
Definition isspace (c : char) : bool :=
  ((9 <=? c) && (c <=? 13) || (28 <=? c) && (c <=? 32)
   || (c =? 133) || (c =? 160) || (c =? 5760)
   || (8192 <=? c) && (c <=? 8202)
   || (c =? 8232) || (c =? 8233) || (c =? 8239) || (c =? 8287)
   || (c =? 12288))%N.

Fixpoint lstrip (s : pystr) : pystr :=
  match s with
  | [] => []
  | c :: s' => if isspace c then lstrip s' else s
  end.

Fixpoint rstrip (s : pystr) : pystr :=
  match s with
  | [] => []
  | c :: s' =>
      match rstrip s' with
      | [] => if isspace c then [] else [c]
      | r => c :: r
      end
  end.

(** [s.strip()] *)
Definition strip (s : pystr) : pystr := rstrip (lstrip s).

(** [s.startswith(p)] *)
Fixpoint startswith (p s : pystr) : bool :=
  match p, s with
  | [], _ => true
  | a :: p', b :: s' => char_eqb a b && startswith p' s'
  | _ :: _, [] => false
  end.

(** [str(n)] for a line number. *)
Definition str_of_nat (n : nat) : pystr :=
  lit (NilEmpty.string_of_uint (Nat.to_uint n)).

(** ** The template stripper: [remove_templates]

    [re.sub(r'<\|.*?\|>', '', text).strip()].  The pattern is an opening
    [<|], a lazy run of characters other than newline, and a closing [|>]. *)

Definition marker_open : pystr := lit "<|".
Definition marker_close : pystr := lit "|>".

(** The lazy tail [.*?\|>] tried at the head of [s]: how many characters
    it consumes, closing marker included.  The dot does not cross a
    newline. *)
Fixpoint lazy_close (s : pystr) : option nat :=
  match s with
  | [] => None
  | c :: s' =>
      if startswith marker_close s then Some 2
      else if char_eqb c newline then None
      else option_map S (lazy_close s')
  end.

(** The whole pattern tried at the head of [s]: the length of the match. *)
Definition match_marker (s : pystr) : option nat :=
  if startswith marker_open s
  then option_map (fun n => 2 + n) (lazy_close (skipn 2 s))
  else None.

(** The left-to-right scan of [re.sub] with the empty replacement:
    [skip] counts the characters of the current match still to drop. *)
Fixpoint sub_scan (skip : nat) (text : pystr) : pystr :=
  match text with
  | [] => []
  | c :: rest =>
      match skip with
      | S k => sub_scan k rest
      | O =>
          match match_marker text with
          | Some n => sub_scan (pred n) rest
          | None => c :: sub_scan 0 rest
          end
      end
  end.

Definition re_sub_marker (text : pystr) : pystr := sub_scan 0 text.

Definition remove_templates (text : pystr) : pystr :=
  strip (re_sub_marker text).

(** Does the pattern match anywhere in [s]? *)
Fixpoint contains_marker (s : pystr) : bool :=
  match s with
  | [] => false
  | _ :: s' =>
      match match_marker s with
      | Some _ => true
      | None => contains_marker s'
      end
  end.

(** ** The instruction extractor

    [re.search(r'<\|start_header_id\|>user<\|end_header_id\|>\n\n(.*?)<\|eot_id\|>',
               prompt, re.DOTALL)]: the dot matches every character. *)

Definition user_open : pystr :=
  lit "<|start_header_id|>user<|end_header_id|>" ++ [newline; newline].
Definition eot : pystr := lit "<|eot_id|>".

(** The lazy group [(.*?)] followed by [close], tried at the head of [s]:
    the captured text. *)
Fixpoint lazy_until (close s : pystr) : option pystr :=
  if startswith close s then Some []
  else match s with
       | [] => None
       | c :: s' => option_map (cons c) (lazy_until close s')
       end.

(** The pattern tried at the head of [s]: group 1 of the match. *)
Definition match_instruction (s : pystr) : option pystr :=
  if startswith user_open s
  then lazy_until eot (skipn (length user_open) s)
  else None.

(** [re.search]: the leftmost position where the pattern matches;
    the result is [instruction_match.group(1)]. *)
Fixpoint search_instruction (prompt : pystr) : option pystr :=
  match match_instruction prompt with
  | Some g => Some g
  | None =>
      match prompt with
      | [] => None
      | _ :: rest => search_instruction rest
      end
  end.

(** ** Decoded JSON and exceptions

    What [json.loads] returns: [None], a [bool], an [int], a [float]
    (binary64), a [str], a [list] or a [dict].  A [dict] is kept as the list
    of its items; its keys are pairwise distinct, as in every Python dict. *)

#[warnings="-register-all"]
Inductive json : Type :=
| JNull
| JBool (b : bool)
| JInt (z : Z)
| JFloat (f : float)
| JStr (s : pystr)
| JList (l : list json)
| JDict (items : list (pystr * json)).

Inductive exn : Type :=
| AttributeError
| TypeError
| UnicodeEncodeError.

Inductive result (A : Type) : Type :=
| Ok (a : A)
| Raise (e : exn).

Arguments Ok {A} a.
Arguments Raise {A} e.

Definition bind {A B : Type} (r : result A) (k : A -> result B) : result B :=
  match r with
  | Ok a => k a
  | Raise e => Raise e
  end.

Notation "x <- r ;; k" := (bind r (fun x => k))
  (at level 61, r at next level, right associativity).

Fixpoint dict_get (items : list (pystr * json)) (key : pystr) (default : json)
  : json :=
  match items with
  | [] => default
  | (k, v) :: rest =>
      if pystr_eqb k key then v else dict_get rest key default
  end.

(** [data.get(key, default)]: only a dict has the method. *)
Definition get (data : json) (key : pystr) (default : json) : result json :=
  match data with
  | JDict items => Ok (dict_get items key default)
  | _ => Raise AttributeError
  end.

(** The [re] functions take a [str] and raise [TypeError] on anything
    else. *)
Definition expect_str (v : json) : result pystr :=
  match v with
  | JStr s => Ok s
  | _ => Raise TypeError
  end.

(** [v == 0] *)
Definition eq_zero (v : json) : bool :=
  match v with
  | JInt z => Z.eqb z 0
  | JBool b => negb b
  | JFloat f => PrimFloat.eqb f 0%float
  | _ => false
  end.

(** ** The output record *)

Record entry : Type := {
  instruction : pystr;
  input : pystr;
  system : pystr;
  output : pystr
}.

Definition output_a : pystr := lit "Output (a)".
Definition output_b : pystr := lit "Output (b)".

Definition quoted (s : pystr) : pystr := dquote :: s ++ [dquote].

Fixpoint unlines (ls : list pystr) : pystr :=
  match ls with
  | [] => []
  | [l] => l
  | l :: rest => l ++ newline :: unlines rest
  end.

(** The f-string of the [instruction] field, line by line. *)
Definition prompt_text (instruction a_text b_text : pystr) : pystr :=
  unlines [
    lit "Select the Output (a) or Output (b) that is better for the given instruction. The two outputs are generated by two different AI chatbots respectively.";
    [];
    lit "Here are some rules of the evaluation:";
    lit "(1) You should prioritize evaluating whether the output honestly/precisely/closely executes the instruction, then consider its helpfulness, accuracy, level of detail, harmlessness, etc.";
    lit "(2) Outputs should NOT contain more/less than what the instruction asks for, as such outputs do NOT precisely execute the instruction.";
    lit "(3) You should avoid any potential bias and your judgment should be as objective as possible. For example, the order in which the outputs were presented should NOT affect your judgment, as Output (a) and Output (b) are **equally likely** to be the better.";
    [];
    lit "Do NOT provide any explanation for your choice.";
    lit "Do NOT say both / neither are good.";
    lit "You should answer using ONLY " ++ quoted output_a ++ lit " or "
      ++ quoted output_b ++ lit ". Do NOT output any other words.";
    [];
    lit "# Instruction:";
    instruction;
    [];
    lit "# Output (a):";
    a_text;
    [];
    lit "# Output (b):";
    b_text;
    [];
    lit "# Which is better, Output (a) or Output (b)? Your response should be either "
      ++ quoted output_a ++ lit " or " ++ quoted output_b ++ lit ":"
  ].

Definition system_text : pystr :=
  lit "You are a helpful assistant in evaluating the quality of the outputs for a given instruction. Your goal is to select the best output for the given instruction.".

(** ** One record of [process_file]

    [arrange] is the body of the loop from the extraction of the
    instruction to the choice of the label: the instruction and the texts
    of the two positions. *)

Record slots : Type := {
  instruction_text : pystr;
  a_text : pystr;
  b_text : pystr;
  output_label : pystr
}.

Definition extract_instruction (prompt : pystr) : pystr :=
  match search_instruction prompt with
  | Some group1 => remove_templates group1
  | None => []
  end.

(** The pair after the [results] correction. *)
Definition correct_pair (results : json) (chosen_text rejected_text : pystr)
  : pystr * pystr :=
  if eq_zero results
  then (rejected_text, chosen_text)
  else (chosen_text, rejected_text).

(** The position alternator: which text goes to which position, and the
    label recorded as the answer. *)
Definition place (toggle : bool) (instruction chosen_text rejected_text : pystr)
  : slots :=
  if toggle
  then {| instruction_text := instruction;
          a_text := chosen_text;
          b_text := rejected_text;
          output_label := output_a |}
  else {| instruction_text := instruction;
          a_text := rejected_text;
          b_text := chosen_text;
          output_label := output_b |}.

Definition arrange (toggle : bool) (data : json) : result slots :=
  prompt <- get data (lit "prompt") (JStr []) ;;
  prompt <- expect_str prompt ;;
  let instruction := extract_instruction prompt in
  chosen <- get data (lit "chosen") (JStr []) ;;
  chosen <- expect_str chosen ;;
  let chosen_text := remove_templates chosen in
  rejected <- get data (lit "rejected") (JStr []) ;;
  rejected <- expect_str rejected ;;
  let rejected_text := remove_templates rejected in
  results <- get data (lit "results") (JInt 1) ;;
  let (chosen_text, rejected_text) :=
    correct_pair results chosen_text rejected_text in
  Ok (place toggle instruction chosen_text rejected_text).

Definition output_entry (s : slots) : entry :=
  {| instruction := prompt_text (instruction_text s) (a_text s) (b_text s);
     input := [];
     system := system_text;
     output := output_label s |}.

(** ** The loop of [process_file] *)

Record run_state : Type := {
  output_data : list entry;
  toggle : bool;
  printed : list pystr
}.

Definition initial_state : run_state :=
  {| output_data := []; toggle := true; printed := [] |}.

(** The message printed for a line that does not decode. *)
Definition skipped_message (line_number : nat) (line : pystr) : pystr :=
  [34892%N; 32%N] ++ str_of_nat line_number
    ++ [32%N; 26080%N; 25928%N; 32%N] ++ lit "JSON"
    ++ [65292%N; 24050%N; 36339%N; 36807%N] ++ lit ": " ++ line.

Section Reformatter.

(** [json.loads] on the lines it decodes or rejects with
    [json.JSONDecodeError], for which [None] stands. *)
Variable json_loads : pystr -> option json.

Definition process_line (line_number : nat) (line : pystr) (st : run_state)
  : result run_state :=
  let line := strip line in
  match line with
  | [] => Ok st
  | _ :: _ =>
      match json_loads line with
      | None =>
          Ok {| output_data := output_data st;
                toggle := toggle st;
                printed := printed st ++ [skipped_message line_number line] |}
      | Some data =>
          s <- arrange (toggle st) data ;;
          Ok {| output_data := output_data st ++ [output_entry s];
                toggle := negb (toggle st);
                printed := printed st |}
      end
  end.

Fixpoint process_lines (line_number : nat) (infile : list pystr)
  (st : run_state) : result run_state :=
  match infile with
  | [] => Ok st
  | line :: rest =>
      st' <- process_line line_number line st ;;
      process_lines (S line_number) rest st'
  end.

(** The first half of [process_file], the loop over the lines of the
    input file: [output_data] as the loop leaves it and what was printed.
    The output file is not opened yet. *)
Definition collect (infile : list pystr) : result (list entry * list pystr) :=
  st <- process_lines 1 infile initial_state ;;
  Ok (output_data st, printed st).

End Reformatter.

(** ** The benchmark scorer: the inference loop and the report of [main] *)

(** A score is a Python [float]; [chosen > rejected] is the binary64
    comparison. *)
Definition score := float.

Definition gt (chosen rejected : score) : bool := PrimFloat.ltb rejected chosen.

(** What the reward pipeline returns for a batch: a list of dicts with a
    [score] field, or a tensor of scores. *)
Inductive rewards : Type :=
| LabeledScore (l : list (string * score))
| RawScore (l : list score).

Inductive bench_exn : Type :=
| NotImplementedError
| IndexError
| ShapeError
| ZeroDivisionError
| OverflowError
| FileNotFoundError.

Record batch (text : Type) : Type := {
  text_chosen : list text;
  text_rejected : list text
}.

Record args : Type := {
  model : string;
  tokenizer : option string;
  chat_template : option string;
  output_dir : string;
  save_all : bool
}.

(** The files [main] writes: the summary object, and the lines of the
    [_all.jsonl] file, each an object with a [chosen] and a [rejected]
    field. *)
Inductive file : Type :=
| Summary (accuracy : float) (num_prompts : nat)
    (model_name tokenizer_name : string) (template : option string)
| ScoreLines (lines : list (list score * list score)).

Definition filesystem := list (string * file).

(** [os.remove] *)
Fixpoint remove (path : string) (fs : filesystem) : filesystem :=
  match fs with
  | [] => []
  | (p, f) :: rest =>
      if String.eqb p path then remove path rest else (p, f) :: remove path rest
  end.

(** The old file is removed when it exists, then the new one is written. *)
Definition write_file (path : string) (f : file) (fs : filesystem)
  : filesystem :=
  (path, f) :: remove path fs.

Fixpoint lookup (path : string) (fs : filesystem) : option file :=
  match fs with
  | [] => None
  | (p, f) :: rest => if String.eqb p path then Some f else lookup path rest
  end.

(** [sum(results)] *)
Definition sum (results : list Z) : Z := fold_left Z.add results 0%Z.

(** The exact quotient of two ints; none when the divisor is 0. *)
Definition quotient (a b : Z) : option Q :=
  if Z.eqb b 0 then None else Some (inject_Z a / inject_Z b)%Q.

(** An int as a float of unbounded precision. *)
Definition SF_of_Z (z : Z) : SpecFloat.spec_float :=
  match z with
  | Z0 => SpecFloat.S754_zero false
  | Zpos p => SpecFloat.S754_finite false p 0
  | Zneg p => SpecFloat.S754_finite true p 0
  end.

(** [a / b] on two ints: the binary64 nearest to the quotient (one
    rounding, ties to even); a zero divisor and a quotient beyond the
    range of a float are refused. *)
Definition true_div (a b : Z) : bench_exn + float :=
  if Z.eqb b 0 then inl ZeroDivisionError
  else
    match SpecFloat.SFdiv FloatOps.prec FloatOps.emax (SF_of_Z a) (SF_of_Z b)
    with
    | SpecFloat.S754_infinity _ => inl OverflowError
    | q => inr (FloatOps.SF2Prim q)
    end.

(** [os.path.dirname] on a POSIX path: the path up to its last slash,
    without the slashes at the end of that unless it has nothing else. *)
Definition slash : ascii := "/"%char.

Fixpoint has_slash (p : string) : bool :=
  match p with
  | EmptyString => false
  | String c rest => Ascii.eqb c slash || has_slash rest
  end.

Fixpoint all_slashes (p : string) : bool :=
  match p with
  | EmptyString => true
  | String c rest => Ascii.eqb c slash && all_slashes rest
  end.

(** [p[:p.rfind('/') + 1]] *)
Fixpoint head_part (p : string) : string :=
  match p with
  | EmptyString => EmptyString
  | String c rest =>
      if has_slash (String c rest) then String c (head_part rest)
      else EmptyString
  end.

(** [head.rstrip('/')] *)
Fixpoint rstrip_slashes (head : string) : string :=
  match head with
  | EmptyString => EmptyString
  | String c rest =>
      match rstrip_slashes rest with
      | EmptyString => if Ascii.eqb c slash then EmptyString
                       else String c EmptyString
      | r => String c r
      end
  end.

Definition dirname (p : string) : string :=
  let head := head_part p in
  if all_slashes head then head else rstrip_slashes head.

(** [os.makedirs(dirname, exist_ok=True)] as far as it depends on its
    argument: an empty name cannot be made.  The directories themselves
    are not part of the file system below, which holds files only. *)
Definition makedirs (name : string) : option bench_exn :=
  match name with
  | EmptyString => Some FileNotFoundError
  | String _ _ => None
  end.

(** The three lists the loop fills. *)
Record tally : Type := {
  results : list Z;
  scores_chosen : list score;
  scores_rejected : list score
}.

Definition empty_tally : tally :=
  {| results := []; scores_chosen := []; scores_rejected := [] |}.

(** [1 if chosen > rejected else 0] for the pairs of a batch, in [zip]
    order. *)
Definition log_results (score_chosen_batch score_rejected_batch : list score)
  : list Z :=
  map (fun p => if gt (fst p) (snd p) then 1%Z else 0%Z)
      (combine score_chosen_batch score_rejected_batch).

Section Scorer.

Variable text : Type.

(** The external reward model pipeline. *)
Variable reward_pipe : list text -> rewards.

(** The scores of a batch as two plain lists.  The shape is decided by
    [rewards_chosen[0]]; an empty answer has no first element, and two
    answers of different shapes cannot be read the same way. *)
Definition score_batch (b : batch text)
  : bench_exn + (list score * list score) :=
  let rewards_chosen := reward_pipe (text_chosen b) in
  let rewards_rejected := reward_pipe (text_rejected b) in
  match rewards_chosen, rewards_rejected with
  | LabeledScore [], _ | RawScore [], _ => inl IndexError
  | LabeledScore cs, LabeledScore rs => inr (map snd cs, map snd rs)
  | RawScore cs, RawScore rs => inr (cs, rs)
  | _, _ => inl ShapeError
  end.

Fixpoint run_inference (dataloader : list (batch text)) (t : tally)
  : bench_exn + tally :=
  match dataloader with
  | [] => inr t
  | b :: rest =>
      match score_batch b with
      | inl e => inl e
      | inr (score_chosen_batch, score_rejected_batch) =>
          run_inference rest
            {| results := results t
                 ++ log_results score_chosen_batch score_rejected_batch;
               scores_chosen := scores_chosen t ++ score_chosen_batch;
               scores_rejected := scores_rejected t ++ score_rejected_batch |}
      end
  end.

(** The exact value of the quotient [sum(results) / len(results)], of
    which [true_div] gives the float. *)
Definition accuracy_of (results : list Z) : option Q :=
  quotient (sum results) (Z.of_nat (length results)).

Definition summary_path (a : args) : string :=
  (output_dir a ++ model a ++ ".json")%string.

Definition all_path (a : args) : string :=
  (output_dir a ++ model a ++ "_all.jsonl")%string.

(** [args.tokenizer if args.tokenizer else args.model]: an empty string
    counts as none. *)
Definition tokenizer_path (a : args) : string :=
  match tokenizer a with
  | Some (String c t) => String c t
  | Some EmptyString | None => model a
  end.

(** The lines of the [_all.jsonl] file: one [write] per pair of the
    [zip], each of the two lists as they stand. *)
Definition all_lines (t : tally) : list (list score * list score) :=
  map (fun _ => (scores_chosen t, scores_rejected t))
      (combine (scores_chosen t) (scores_rejected t)).

(** [main] from the configuration check on: the file system it leaves
    and the exception it ends with, if any. *)
Definition main (a : args) (custom_dialogue : bool)
  (dataloader : list (batch text)) (fs : filesystem)
  : filesystem * option bench_exn :=
  if custom_dialogue then (fs, Some NotImplementedError)
  else
    match run_inference dataloader empty_tally with
    | inl e => (fs, Some e)
    | inr t =>
        match true_div (sum (results t)) (Z.of_nat (length (results t))) with
        | inl e => (fs, Some e)
        | inr accuracy =>
            let output_path := summary_path a in
            match makedirs (dirname output_path) with
            | Some e => (fs, Some e)
            | None =>
                let fs1 :=
                  write_file output_path
                    (Summary accuracy (length (results t)) (model a)
                       (tokenizer_path a) (chat_template a)) fs in
                if save_all a
                then
                  let output_path := all_path a in
                  match makedirs (dirname output_path) with
                  | Some e => (fs1, Some e)
                  | None =>
                      (write_file output_path (ScoreLines (all_lines t)) fs1,
                       None)
                  end
                else (fs1, None)
            end
        end
    end.

End Scorer.

(** ** Reading a run of the reformatter *)

(** The labels of [n] records in a row, from a given toggle on. *)
Fixpoint alternating (toggle : bool) (n : nat) : list pystr :=
  match n with
  | O => []
  | S k => (if toggle then output_a else output_b) :: alternating (negb toggle) k
  end.

Definition is_str (v : json) : bool :=
  match v with
  | JStr _ => true
  | _ => false
  end.

Fixpoint has_key (items : list (pystr * json)) (key : pystr) : bool :=
  match items with
  | [] => false
  | (k, _) :: rest => pystr_eqb k key || has_key rest key
  end.

(** The three text fields of a dict: each one a string, or absent. *)
Definition text_fields (items : list (pystr * json)) : bool :=
  is_str (dict_get items (lit "prompt") (JStr []))
  && is_str (dict_get items (lit "chosen") (JStr []))
  && is_str (dict_get items (lit "rejected") (JStr [])).

(** A decoded line that is a preference record. *)
Definition preference_record (data : json) : bool :=
  match data with
  | JDict items => text_fields items
  | _ => false
  end.

(** The text of a field of a record, empty when the field is absent. *)
Definition field_text (data : json) (key : pystr) : pystr :=
  match data with
  | JDict items =>
      match dict_get items key (JStr []) with
      | JStr s => s
      | _ => []
      end
  | _ => []
  end.

Definition results_flag (data : json) : json :=
  match data with
  | JDict items => dict_get items (lit "results") (JInt 1)
  | _ => JInt 1
  end.

(** The corrected [(chosen, rejected)] texts of a record. *)
Definition corrected (data : json) : pystr * pystr :=
  correct_pair (results_flag data)
    (remove_templates (field_text data (lit "chosen")))
    (remove_templates (field_text data (lit "rejected"))).

(** [records] are the records of [datas], one each and in order, the first
    one placed with [toggle]. *)
Fixpoint arranged (toggle : bool) (datas : list json) (records : list entry)
  : Prop :=
  match datas, records with
  | [], [] => True
  | data :: datas', record :: records' =>
      (exists s, arrange toggle data = Ok s /\ record = output_entry s)
      /\ arranged (negb toggle) datas' records'
  | _, _ => False
  end.

Section Lines.

Variable json_loads : pystr -> option json.

(** A line that is not blank and does not decode. *)
Definition malformed (line : pystr) : bool :=
  match strip line with
  | [] => false
  | _ :: _ =>
      match json_loads (strip line) with
      | None => true
      | Some _ => false
      end
  end.

(** A line that decodes to a preference record. *)
Definition well_formed (line : pystr) : bool :=
  match strip line with
  | [] => false
  | _ :: _ =>
      match json_loads (strip line) with
      | None => false
      | Some data => preference_record data
      end
  end.

(** The decoded values of the lines that decode, in the order of the
    file. *)
Fixpoint decoded (infile : list pystr) : list json :=
  match infile with
  | [] => []
  | line :: rest =>
      match strip line with
      | [] => decoded rest
      | _ :: _ =>
          match json_loads (strip line) with
          | None => decoded rest
          | Some data => data :: decoded rest
          end
      end
  end.

(** The messages for the malformed lines, numbered from [line_number]. *)
Fixpoint warnings (line_number : nat) (infile : list pystr) : list pystr :=
  match infile with
  | [] => []
  | line :: rest =>
      (if malformed line then [skipped_message line_number (strip line)]
       else [])
      ++ warnings (S line_number) rest
  end.

End Lines.

(** ** Sample input lines

    Four lines of an input file and what [json.loads] returns on them; the
    third one is cut short and does not decode. *)

Definition q (s : string) : pystr := quoted (lit s).

Definition haiku_prompt : pystr :=
  lit "...<|start_header_id|>user<|end_header_id|>" ++ [newline; newline]
    ++ lit "Write a haiku.<|eot_id|>".

Definition haiku_line (flag : string) : pystr :=
  lit "{" ++ q "prompt" ++ lit ": "
    ++ q "...<|start_header_id|>user<|end_header_id|>\n\nWrite a haiku.<|eot_id|>"
    ++ lit ", " ++ q "chosen" ++ lit ": " ++ q "<|x|>A<|/x|>"
    ++ lit ", " ++ q "rejected" ++ lit ": " ++ q "<|x|>B<|/x|>"
    ++ lit ", " ++ q "results" ++ lit ": " ++ lit flag ++ lit "}"
    ++ [newline].

Definition haiku_record (flag : Z) : json :=
  JDict [(lit "prompt", JStr haiku_prompt);
         (lit "chosen", JStr (lit "<|x|>A<|/x|>"));
         (lit "rejected", JStr (lit "<|x|>B<|/x|>"));
         (lit "results", JInt flag)].

Definition cut_line : pystr :=
  lit "{" ++ q "prompt" ++ lit ": " ++ [dquote] ++ lit "Write a" ++ [newline].

Definition null_line : pystr :=
  lit "{" ++ q "chosen" ++ lit ": null}" ++ [newline].

Definition null_record : json := JDict [(lit "chosen", JNull)].

Definition bare_line : pystr :=
  lit "{" ++ q "chosen" ++ lit ": " ++ q "A" ++ lit "}" ++ [newline].

Definition bare_record : json := JDict [(lit "chosen", JStr (lit "A"))].

Definition sample_table : list (pystr * json) :=
  [(strip (haiku_line "1"), haiku_record 1);
   (strip (haiku_line "0"), haiku_record 0);
   (strip null_line, null_record);
   (strip bare_line, bare_record)].

Fixpoint table_lookup (table : list (pystr * json)) (line : pystr)
  : option json :=
  match table with
  | [] => None
  | (l, v) :: rest => if pystr_eqb l line then Some v else table_lookup rest line
  end.

Definition sample_loads (line : pystr) : option json :=
  table_lookup sample_table line.

(** A file of five lines: a record, a blank line, the line cut short, the
    record with the flag at 0, and a record with the [chosen] field only. *)
Definition sample_file : list pystr :=
  [haiku_line "1"; [newline]; cut_line; haiku_line "0"; bare_line].

(** ** Reading a run of the benchmark *)

Definition indicator (pair : score * score) : Z :=
  if gt (fst pair) (snd pair) then 1%Z else 0%Z.

(** The number of pairs whose chosen score exceeds the rejected one. *)
Definition wins (pairs : list (score * score)) : nat :=
  length (filter (fun pair => gt (fst pair) (snd pair)) pairs).

Section Pairs.

Variable text : Type.
Variable reward_pipe : list text -> rewards.

(** The scored pairs of a batch: the chosen and the rejected score at the
    same index of the batch. *)
Definition batch_pairs (b : batch text) : list (score * score) :=
  match score_batch reward_pipe b with
  | inr (score_chosen_batch, score_rejected_batch) =>
      combine score_chosen_batch score_rejected_batch
  | inl _ => []
  end.

(** The scored pairs of the whole data set, batch after batch. *)
Definition all_pairs (dataloader : list (batch text))
  : list (score * score) :=
  flat_map batch_pairs dataloader.

End Pairs.

(** ** Sample benchmark run

    A reward model that gives four texts the scores 0.9, 0.1, 0.2 and 0.8
    (each the nearest binary64, as in Python), and a data set of two pairs
    in one batch. *)

Set Warnings "-inexact-float".

Definition sample_score (t : string) : score :=
  if String.eqb t "chosen 1" then 0.9%float
  else if String.eqb t "chosen 2" then 0.1%float
  else if String.eqb t "rejected 1" then 0.2%float
  else 0.8%float.

Definition sample_pipe (texts : list string) : rewards :=
  LabeledScore (map (fun t => ("LABEL_0"%string, sample_score t)) texts).

Definition sample_dataloader : list (batch string) :=
  [{| text_chosen := ["chosen 1"; "chosen 2"]%string;
      text_rejected := ["rejected 1"; "rejected 2"]%string |}].

Definition sample_args : args :=
  {| model := "rm";
     tokenizer := None;
     chat_template := None;
     output_dir := "results/";
     save_all := true |}.

(** ** Writing the output file

    [json.dumps(entry, ensure_ascii=False)] on a record, and the loop that
    writes one line per record to a file opened as UTF-8 text. *)

Definition backslash : char := 92%N.

(** One lower-case hexadecimal digit. *)
Definition hex_digit (n : N) : char :=
  (if n <? 10 then 48 + n else 87 + n)%N.

(** The escape of one character inside a JSON string: the quote, the
    backslash and the control characters are escaped, every other
    character is written as it is. *)
Definition escape_char (c : char) : pystr :=
  (if c =? 34 then [backslash; 34]
   else if c =? 92 then [backslash; 92]
   else if c =? 10 then [backslash; 110]
   else if c =? 13 then [backslash; 114]
   else if c =? 9 then [backslash; 116]
   else if c =? 8 then [backslash; 98]
   else if c =? 12 then [backslash; 102]
   else if c <? 32
        then [backslash; 117; 48; 48; hex_digit (c / 16); hex_digit (c mod 16)]
   else [c])%N.

Definition dumps_str (s : pystr) : pystr :=
  dquote :: flat_map escape_char s ++ [dquote].

(** [json.dumps] of the record: the four keys in the order of the dict
    literal, with the separators [", "] and [": "]. *)
Definition json_dumps (e : entry) : pystr :=
  lit "{" ++ dumps_str (lit "instruction") ++ lit ": "
    ++ dumps_str (instruction e)
    ++ lit ", " ++ dumps_str (lit "input") ++ lit ": " ++ dumps_str (input e)
    ++ lit ", " ++ dumps_str (lit "system") ++ lit ": " ++ dumps_str (system e)
    ++ lit ", " ++ dumps_str (lit "output") ++ lit ": " ++ dumps_str (output e)
    ++ lit "}".

(** A surrogate code point has no UTF-8 encoding. *)
Definition surrogate (c : char) : bool := ((55296 <=? c) && (c <=? 57343))%N.

Definition encodable (s : pystr) : bool := forallb (fun c => negb (surrogate c)) s.

(** The writing loop: the text that reaches the file, and whether a
    [write] raised [UnicodeEncodeError] (the lines written before it stay
    in the file). *)
Fixpoint write_entries (output_data : list entry) : pystr * bool :=
  match output_data with
  | [] => ([], false)
  | e :: rest =>
      let json_line := json_dumps e in
      if encodable (json_line ++ [newline])
      then let (text, raised) := write_entries rest in
           (json_line ++ newline :: text, raised)
      else ([], true)
  end.

(** The records whose lines reach the file: those before the first one
    that cannot be encoded. *)
Fixpoint written (output_data : list entry) : list entry :=
  match output_data with
  | [] => []
  | e :: rest =>
      if encodable (json_dumps e ++ [newline]) then e :: written rest else []
  end.

Section Program.

Variable json_loads : pystr -> option json.

(** [process_file]: the loop over the input lines, then the writing loop.
    A completed call gives the records it has written to the output file,
    one per line and in this order, and what it has printed.  A call that
    raises in the first loop never opens the output file; one that raises
    in the writing loop leaves the lines of [written] in it. *)
Definition process_file (infile : list pystr)
  : result (list entry * list pystr) :=
  r <- collect json_loads infile ;;
  if snd (write_entries (fst r)) then Raise UnicodeEncodeError else Ok r.

(** The records a run leaves in the output file, whether it completes or
    raises. *)
Definition emitted (infile : list pystr) : list entry :=
  match collect json_loads infile with
  | Ok (records, _) => written records
  | Raise _ => []
  end.

End Program.

(** The lines of a text, each without its newline; what follows the last
    newline is a line when it is not empty. *)
Fixpoint lines_of (text : pystr) : list pystr :=
  match text with
  | [] => []
  | c :: rest =>
      if char_eqb c newline then [] :: lines_of rest
      else match lines_of rest with
           | [] => [[c]]
           | l :: ls => (c :: l) :: ls
           end
  end.

(** [s] is [t] with some characters left out. *)
Inductive subsequence : pystr -> pystr -> Prop :=
| subsequence_nil : subsequence [] []
| subsequence_keep (c : char) (s t : pystr) :
    subsequence s t -> subsequence (c :: s) (c :: t)
| subsequence_drop (c : char) (s t : pystr) :
    subsequence s t -> subsequence s (c :: t).

(** ** The pad token set-up of [main]

    The three attributes the set-up reads and writes:
    [tokenizer.pad_token_id], [tokenizer.eos_token_id] and
    [model.config.pad_token_id]; [None] is Python's [None]. *)

Record token_ids : Type := {
  tokenizer_pad : option Z;
  tokenizer_eos : option Z;
  model_pad : option Z
}.

Definition set_pad_token (ids : token_ids) : token_ids :=
  let ids1 :=
    match tokenizer_pad ids with
    | None =>
        {| tokenizer_pad := tokenizer_eos ids;
           tokenizer_eos := tokenizer_eos ids;
           model_pad := tokenizer_eos ids |}
    | Some _ => ids
    end in
  match model_pad ids1 with
  | None =>
      {| tokenizer_pad := tokenizer_pad ids1;
         tokenizer_eos := tokenizer_eos ids1;
         model_pad := tokenizer_pad ids1 |}
  | Some _ => ids1
  end.

(** A line whose [chosen] text is a lone surrogate, written as an escape,
    and the decoder of the sample lines that knows it too. *)
Definition surrogate_line : pystr :=
  lit "{" ++ q "chosen" ++ lit ": " ++ q "\ud83d" ++ lit "}" ++ [newline].

Definition surrogate_record : json := JDict [(lit "chosen", JStr [55357%N])].

Definition surrogate_loads (line : pystr) : option json :=
  table_lookup (sample_table ++ [(strip surrogate_line, surrogate_record)])
    line.

(** ** Reading more of a run *)

(** A line with nothing but whitespace. *)
Definition is_blank (line : pystr) : bool :=
  match strip line with
  | [] => true
  | _ :: _ => false
  end.

(** No whitespace at either end. *)
Definition trimmed (s : pystr) : bool :=
  match s with
  | [] => true
  | c :: _ => negb (isspace c) && negb (isspace (last s c))
  end.

(** The records labelled with [label]. *)
Definition labelled (label : pystr) (records : list entry) : list entry :=
  filter (fun e => pystr_eqb (output e) label) records.

(** The four text fields of a record can be written as UTF-8. *)
Definition encodable_entry (e : entry) : bool :=
  encodable (instruction e) && encodable (input e)
  && encodable (system e) && encodable (output e).

(** Reading one character of a JSON string back: the character and the
    rest of the text, or nothing at the closing quote. *)
Definition unhex (x : char) : N := (if x <? 58 then x - 48 else x - 87)%N.

Definition unescape_head (s : pystr) : option (char * pystr) :=
  match s with
  | [] => None
  | c :: rest =>
      if (c =? 92)%N then
        match rest with
        | [] => None
        | d :: rest' =>
            (if d =? 34 then Some (34, rest')
             else if d =? 92 then Some (92, rest')
             else if d =? 110 then Some (10, rest')
             else if d =? 114 then Some (13, rest')
             else if d =? 116 then Some (9, rest')
             else if d =? 98 then Some (8, rest')
             else if d =? 102 then Some (12, rest')
             else if d =? 117 then
               match rest' with
               | _ :: _ :: h :: l :: r => Some (16 * unhex h + unhex l, r)
               | _ => None
               end
             else None)%N
        end
      else if (c =? 34)%N then None
      else Some (c, rest)
  end.

Section Balance.

Variable text : Type.
Variable reward_pipe : list text -> rewards.

(** The pipeline gave as many scores for the rejected texts of the batch
    as for the chosen ones. *)
Definition balanced (b : batch text) : bool :=
  match score_batch reward_pipe b with
  | inr (score_chosen_batch, score_rejected_batch) =>
      Nat.eqb (length score_chosen_batch) (length score_rejected_batch)
  | inl _ => true
  end.

End Balance.

(** * Properties *)

(** ** Whitespace stripping *)

Lemma lstrip_head (s : pystr) :
  lstrip s = [] \/ exists c r, lstrip s = c :: r /\ isspace c = false.
Proof.
  induction s as [|c s IH]; simpl.
  - now left.
  - destruct (isspace c) eqn:E; [exact IH|].
    right. now exists c, s.
Qed.

Lemma lstrip_nonspace (c : char) (s : pystr) :
  isspace c = false -> lstrip (c :: s) = c :: s.
Proof. intros E. simpl. now rewrite E. Qed.

Lemma rstrip_nonspace (c : char) (s : pystr) :
  isspace c = false -> exists r, rstrip (c :: s) = c :: r.
Proof.
  intros E. simpl. destruct (rstrip s) as [|x r].
  - rewrite E. now exists [].
  - now exists (x :: r).
Qed.

Lemma rstrip_idempotent (s : pystr) : rstrip (rstrip s) = rstrip s.
Proof.
  induction s as [|c s IH]; simpl; [reflexivity|].
  destruct (rstrip s) as [|x r] eqn:R.
  - destruct (isspace c) eqn:E; simpl; [reflexivity|]. now rewrite E.
  - change (rstrip (c :: x :: r)) with
      (match rstrip (x :: r) with
       | [] => if isspace c then [] else [c]
       | y :: r' => c :: y :: r'
       end).
    now rewrite IH.
Qed.

Lemma strip_idempotent (s : pystr) : strip (strip s) = strip s.
Proof.
  unfold strip.
  destruct (lstrip_head s) as [E | (c & r & E & Hc)]; rewrite E.
  - reflexivity.
  - destruct (rstrip_nonspace c r Hc) as [r' R].
    rewrite R, (lstrip_nonspace c r' Hc), <- R.
    apply rstrip_idempotent.
Qed.

Lemma lstrip_length (s : pystr) : length (lstrip s) <= length s.
Proof.
  induction s as [|c s IH]; simpl; [lia|].
  destruct (isspace c); simpl; lia.
Qed.

Lemma rstrip_length (s : pystr) : length (rstrip s) <= length s.
Proof.
  induction s as [|c s IH]; simpl; [lia|].
  destruct (rstrip s); [destruct (isspace c)|]; simpl in *; lia.
Qed.

Lemma strip_length (s : pystr) : length (strip s) <= length s.
Proof.
  unfold strip.
  pose proof (rstrip_length (lstrip s)). pose proof (lstrip_length s). lia.
Qed.

(** ** The scan of [re.sub] *)

Lemma sub_scan_no_marker (s : pystr) :
  contains_marker s = false -> sub_scan 0 s = s.
Proof.
  induction s as [|c s IH]; [reflexivity|].
  cbn [contains_marker sub_scan].
  destruct (match_marker (c :: s)); [discriminate|].
  intros H. now rewrite IH.
Qed.

Lemma sub_scan_length (s : pystr) : forall skip,
  length (sub_scan skip s) <= length s.
Proof.
  induction s as [|c s IH]; intros skip; [simpl; lia|].
  cbn [sub_scan].
  destruct skip as [|k].
  - destruct (match_marker (c :: s)) as [n|]; simpl.
    + specialize (IH (pred n)). lia.
    + specialize (IH 0). lia.
  - specialize (IH k). simpl. lia.
Qed.

Lemma sub_scan_shrinks (s : pystr) :
  contains_marker s = true -> length (sub_scan 0 s) < length s.
Proof.
  induction s as [|c s IH]; [discriminate|].
  cbn [contains_marker sub_scan].
  destruct (match_marker (c :: s)) as [n|]; intros H.
  - pose proof (sub_scan_length s (pred n)). simpl. lia.
  - specialize (IH H). simpl. lia.
Qed.

(** C6 (as amended): the stripped text is a fixed point of the stripper
    exactly when no marker occurrence is left in it.  A single pass of the
    substitution can leave one behind: removing a marker joins the text on
    its two sides. *)
Theorem remove_templates_fixed_point (s : pystr) :
  remove_templates (remove_templates s) = remove_templates s
  <-> contains_marker (remove_templates s) = false.
Proof.
  split.
  - intros Fix.
    destruct (contains_marker (remove_templates s)) eqn:C; [|reflexivity].
    exfalso.
    pose proof (sub_scan_shrinks _ C) as Lt.
    pose proof (strip_length (re_sub_marker (remove_templates s))) as Le.
    unfold re_sub_marker in Le.
    apply (f_equal (@length char)) in Fix.
    unfold remove_templates at 1 in Fix. unfold re_sub_marker in Fix.
    lia.
  - intros C.
    unfold remove_templates at 1. unfold re_sub_marker.
    rewrite (sub_scan_no_marker _ C).
    unfold remove_templates. apply strip_idempotent.
Qed.

Lemma remove_templates_fixed_point_witness :
  contains_marker (remove_templates (lit "  <|x|>A<|/x|> ")) = false
  /\ remove_templates (remove_templates (lit "  <|x|>A<|/x|> "))
     = remove_templates (lit "  <|x|>A<|/x|> ").
Proof.
  split; [reflexivity|].
  apply (proj2 (remove_templates_fixed_point (lit "  <|x|>A<|/x|> "))).
  reflexivity.
Defined.

(** C6 (as stated) fails: one pass over [<<|x|>|y|>] removes [<|x|>] and
    leaves [<|y|>], which a second pass removes. *)
Lemma remove_templates_not_idempotent :
  remove_templates (remove_templates (lit "<<|x|>|y|>"))
  <> remove_templates (lit "<<|x|>|y|>").
Proof. vm_compute. discriminate. Qed.

(** ** One record *)

Lemma place_label (toggle : bool) (i c r : pystr) :
  output_label (place toggle i c r) = if toggle then output_a else output_b.
Proof. now destruct toggle. Qed.

Lemma is_str_inv (v : json) : is_str v = true -> exists s, v = JStr s.
Proof. destruct v; try discriminate. intros _. now eexists. Qed.

(** A record whose text fields are strings, or absent, is arranged: the
    instruction is extracted from the prompt and the corrected pair is
    placed by the toggle. *)
Lemma arrange_record (toggle : bool) (items : list (pystr * json)) :
  text_fields items = true ->
  arrange toggle (JDict items) =
    Ok (place toggle
          (extract_instruction (field_text (JDict items) (lit "prompt")))
          (fst (corrected (JDict items)))
          (snd (corrected (JDict items)))).
Proof.
  unfold text_fields, arrange, corrected, field_text, results_flag, get.
  intros H.
  apply andb_prop in H as [H Hr]. apply andb_prop in H as [Hp Hc].
  apply is_str_inv in Hp as [p Hp], Hc as [c Hc], Hr as [r Hr].
  cbn [bind]. rewrite Hp, Hc, Hr. cbn [bind expect_str].
  now destruct (correct_pair _ _ _).
Qed.

(** Conversely, only such a record is arranged. *)
Lemma arrange_inv (toggle : bool) (data : json) (s : slots) :
  arrange toggle data = Ok s -> preference_record data = true.
Proof.
  destruct data as [| | | | |l|items]; try discriminate.
  unfold arrange, preference_record, text_fields, get. cbn [bind].
  destruct (dict_get items (lit "prompt") (JStr [])); try discriminate.
  cbn [bind expect_str].
  destruct (dict_get items (lit "chosen") (JStr [])); try discriminate.
  cbn [bind expect_str].
  destruct (dict_get items (lit "rejected") (JStr [])); try discriminate.
  reflexivity.
Qed.

Lemma arrange_slots (toggle : bool) (data : json) (s : slots) :
  arrange toggle data = Ok s ->
  s = place toggle (extract_instruction (field_text data (lit "prompt")))
        (fst (corrected data)) (snd (corrected data)).
Proof.
  intros H. pose proof (arrange_inv _ _ H) as R.
  destruct data; try discriminate.
  rewrite (arrange_record toggle _ R) in H. now injection H.
Qed.

(** ** The loop *)

Section Run.

Variable json_loads : pystr -> option json.

Lemma arranged_app (ds1 : list json) : forall t rs1 ds2 rs2,
  arranged t ds1 rs1 ->
  arranged (if Nat.even (length rs1) then t else negb t) ds2 rs2 ->
  arranged t (ds1 ++ ds2) (rs1 ++ rs2).
Proof.
  induction ds1 as [|d ds1 IH]; intros t [|r rs1] ds2 rs2 H1 H2;
    simpl in H1; try contradiction.
  - exact H2.
  - destruct H1 as [Hd H1]. split; [exact Hd|].
    apply IH; [exact H1|].
    cbn [length] in H2. rewrite Nat.even_succ, <- Nat.negb_even in H2.
    destruct (Nat.even (length rs1)); simpl in *;
      [exact H2 | now rewrite negb_involutive].
Qed.

Lemma arranged_length (ds : list json) : forall t rs,
  arranged t ds rs -> length rs = length ds.
Proof.
  induction ds as [|d ds IH]; intros t [|r rs] H; simpl in H;
    try contradiction; [reflexivity|].
  simpl. f_equal. now apply (IH (negb t)).
Qed.

Lemma arranged_functional (ds : list json) : forall t rs rs',
  arranged t ds rs -> arranged t ds rs' -> rs = rs'.
Proof.
  induction ds as [|d ds IH]; intros t [|r rs] [|r' rs'] H H'; simpl in *;
    try contradiction; [reflexivity|].
  destruct H as [(s & A & E) H], H' as [(s' & A' & E') H'].
  rewrite A in A'. injection A' as <-. subst r r'. f_equal.
  now apply (IH (negb t)).
Qed.

Lemma arranged_labels (ds : list json) : forall t rs,
  arranged t ds rs -> map output rs = alternating t (length rs).
Proof.
  induction ds as [|d ds IH]; intros t [|r rs] H; simpl in H;
    try contradiction; [reflexivity|].
  destruct H as [(s & A & E) H]. simpl. f_equal.
  - subst r. cbn [output output_entry].
    apply arrange_slots in A. rewrite A. apply place_label.
  - now apply IH.
Qed.

(** What one line does to the state of the loop. *)
Lemma process_line_shape (n : nat) (line : pystr) (st st' : run_state) :
  process_line json_loads n line st = Ok st' ->
  exists rs,
    output_data st' = output_data st ++ rs
    /\ arranged (toggle st) (decoded json_loads [line]) rs
    /\ toggle st' = (if Nat.even (length rs) then toggle st
                     else negb (toggle st))
    /\ printed st' = printed st ++ warnings json_loads n [line].
Proof.
  unfold process_line, malformed. cbn [decoded warnings].
  unfold malformed.
  destruct (strip line) as [|c l] eqn:S.
  - intros H. injection H as <-. exists [].
    now rewrite !app_nil_r.
  - destruct (json_loads (c :: l)) as [data|] eqn:J.
    + destruct (arrange (toggle st) data) as [s|e] eqn:A; [|discriminate].
      cbn [bind]. intros H. injection H as <-.
      exists [output_entry s]. cbn.
      repeat split; [now exists s | now rewrite app_nil_r].
    + intros H. injection H as <-. exists []. cbn.
      now rewrite !app_nil_r.
Qed.

Lemma decoded_app (l1 l2 : list pystr) :
  decoded json_loads (l1 ++ l2) = decoded json_loads l1 ++ decoded json_loads l2.
Proof.
  induction l1 as [|line l1 IH]; [reflexivity|].
  cbn [decoded app].
  destruct (strip line); [exact IH|].
  destruct (json_loads _); [|exact IH].
  now rewrite IH.
Qed.

Lemma warnings_app (l1 l2 : list pystr) : forall n,
  warnings json_loads n (l1 ++ l2) =
    warnings json_loads n l1 ++ warnings json_loads (length l1 + n) l2.
Proof.
  induction l1 as [|line l1 IH]; intros n; [reflexivity|].
  cbn [warnings app length]. rewrite IH, <- app_assoc.
  now rewrite Nat.add_succ_r.
Qed.

(** What a run of the loop does to its state: the records of the lines
    that decode are appended in order, the toggle has been inverted once
    for each, and one message was printed for each malformed line. *)
Lemma process_lines_shape (infile : list pystr) : forall n st st',
  process_lines json_loads n infile st = Ok st' ->
  exists rs,
    output_data st' = output_data st ++ rs
    /\ arranged (toggle st) (decoded json_loads infile) rs
    /\ toggle st' = (if Nat.even (length rs) then toggle st
                     else negb (toggle st))
    /\ printed st' = printed st ++ warnings json_loads n infile.
Proof.
  induction infile as [|line rest IH]; intros n st st' H.
  - injection H as <-. exists []. cbn. now rewrite !app_nil_r.
  - cbn [process_lines] in H.
    destruct (process_line json_loads n line st) as [st1|e] eqn:L;
      [|discriminate].
    cbn [bind] in H.
    destruct (process_line_shape _ _ _ L) as (rs1 & O1 & A1 & T1 & P1).
    destruct (IH _ _ _ H) as (rs2 & O2 & A2 & T2 & P2).
    exists (rs1 ++ rs2).
    change (line :: rest) with ([line] ++ rest).
    rewrite decoded_app, warnings_app.
    repeat split.
    + now rewrite O2, O1, app_assoc.
    + apply arranged_app; [exact A1|]. now rewrite <- T1.
    + rewrite T2, T1, length_app, Nat.even_add.
      destruct (Nat.even (length rs1)), (Nat.even (length rs2)),
        (toggle st); reflexivity.
    + now rewrite P2, P1, app_assoc.
Qed.

(** A run over lines that are blank, malformed or preference records does
    not raise. *)
Lemma process_lines_total (infile : list pystr) : forall n st,
  Forall (fun d => preference_record d = true) (decoded json_loads infile) ->
  exists st', process_lines json_loads n infile st = Ok st'.
Proof.
  induction infile as [|line rest IH]; intros n st F.
  - now exists st.
  - cbn [process_lines decoded] in *. unfold process_line.
    destruct (strip line) as [|c l]; [apply IH, F|].
    destruct (json_loads (c :: l)) as [data|]; [|apply IH, F].
    inversion F as [|? ? Hd F']; subst.
    destruct data; try discriminate.
    rewrite (arrange_record _ _ Hd). cbn [bind]. apply IH, F'.
Qed.

Lemma collect_ok (infile : list pystr) :
  Forall (fun d => preference_record d = true) (decoded json_loads infile) ->
  exists records,
    collect json_loads infile = Ok (records, warnings json_loads 1 infile)
    /\ arranged true (decoded json_loads infile) records.
Proof.
  intros F. unfold collect.
  destruct (process_lines_total infile 1 initial_state F) as [st' R].
  destruct (process_lines_shape _ _ _ R) as (rs & O & A & _ & P).
  cbn in O, A, P. exists rs. rewrite R. cbn [bind]. now rewrite O, P.
Qed.

Lemma arranged_placed (ds : list json) : forall t rs,
  arranged t ds rs ->
  Forall2 (fun data record =>
             exists t', record =
               output_entry
                 (place t'
                    (extract_instruction (field_text data (lit "prompt")))
                    (fst (corrected data)) (snd (corrected data))))
          ds rs.
Proof.
  induction ds as [|d ds IH]; intros t [|r rs] H; simpl in H;
    try contradiction; constructor.
  - destruct H as [(s & A & ->) _]. exists t.
    now rewrite (arrange_slots _ _ A).
  - destruct H as [_ H]. now apply (IH (negb t)).
Qed.

(** Lines that are all preference records: each yields its decoded value,
    and none a message. *)
Lemma well_formed_lines (ls : list pystr) :
  Forall (fun l => well_formed json_loads l = true) ls ->
  Forall2 (fun line data => json_loads (strip line) = Some data)
          ls (decoded json_loads ls)
  /\ Forall (fun d => preference_record d = true) (decoded json_loads ls)
  /\ forall n, warnings json_loads n ls = [].
Proof.
  induction 1 as [|line ls W _ (IH1 & IH2 & IH3)].
  - repeat split; constructor.
  - unfold well_formed in W. cbn [decoded warnings]. unfold malformed.
    destruct (strip line) as [|c l] eqn:S; [discriminate|].
    destruct (json_loads (c :: l)) as [data|] eqn:J; [|discriminate].
    repeat split.
    + constructor; [now rewrite S | exact IH1].
    + constructor; [exact W | exact IH2].
    + intros n. apply IH3.
Qed.

Lemma malformed_line (bad : pystr) :
  malformed json_loads bad = true ->
  decoded json_loads [bad] = []
  /\ (forall n, warnings json_loads n [bad] = [skipped_message n (strip bad)])
  /\ forall n st,
       process_line json_loads n bad st =
         Ok {| output_data := output_data st;
               toggle := toggle st;
               printed := printed st ++ [skipped_message n (strip bad)] |}.
Proof.
  intros M. cbn [decoded warnings]. rewrite M.
  unfold malformed in M. unfold process_line.
  destruct (strip bad) as [|c l]; [discriminate|].
  destruct (json_loads (c :: l)); [discriminate|].
  repeat split.
Qed.

End Run.

(** The sample file: three records for five lines, labelled a, b, a, and
    one message, for line 3. *)
Example sample_run :
  map output (emitted sample_loads sample_file)
    = [output_a; output_b; output_a]
  /\ process_file sample_loads sample_file
     = Ok (emitted sample_loads sample_file,
           [skipped_message 3 (strip cut_line)]).
Proof. split; vm_compute; reflexivity. Qed.

(** The haiku record as the first record of a run: position a holds [A]
    with the flag at 1 and [B] with the flag at 0, and the label is
    [Output (a)] both times. *)
Example haiku_first_record :
  arrange true (haiku_record 1)
    = Ok {| instruction_text := lit "Write a haiku.";
            a_text := lit "A";
            b_text := lit "B";
            output_label := output_a |}
  /\ arrange true (haiku_record 0)
     = Ok {| instruction_text := lit "Write a haiku.";
             a_text := lit "B";
             b_text := lit "A";
             output_label := output_a |}.
Proof. split; reflexivity. Qed.

(** ** The pair corrector *)

Lemma dict_get_absent (items : list (pystr * json)) (key : pystr)
  (default : json) :
  has_key items key = false -> dict_get items key default = default.
Proof.
  induction items as [|[k v] rest IH]; [reflexivity|].
  cbn [has_key dict_get].
  destruct (pystr_eqb k key); [discriminate|]. exact IH.
Qed.

(** [v == 0] holds of the int 0, of [False] and of the two float zeros. *)
Lemma eq_zero_cases (v : json) :
  eq_zero v = true <->
  v = JInt 0 \/ v = JBool false
  \/ exists f, v = JFloat f /\ PrimFloat.eqb f 0%float = true.
Proof.
  split.
  - destruct v as [|b|z|f| | |]; try discriminate; cbn [eq_zero]; intros H.
    + right. left. destruct b; [discriminate | reflexivity].
    + left. apply Z.eqb_eq in H. now subst.
    + right. right. now exists f.
  - intros [-> | [-> | (f & -> & H)]]; [reflexivity | reflexivity | exact H].
Qed.

(** C3: the corrected pair is the stripped pair swapped when the [results]
    field equals 0 and the stripped pair itself otherwise; an absent field
    counts as 1.  With the flag at 0 the position the rejected text would
    have had holds the stripped chosen text, and the other one the stripped
    rejected text. *)
Theorem swap_on_results_zero (toggle : bool) (items : list (pystr * json))
  (p c r : pystr) :
  dict_get items (lit "prompt") (JStr []) = JStr p ->
  dict_get items (lit "chosen") (JStr []) = JStr c ->
  dict_get items (lit "rejected") (JStr []) = JStr r ->
  let instruction := extract_instruction p in
  let kept := place toggle instruction (remove_templates c) (remove_templates r) in
  let swapped :=
    place toggle instruction (remove_templates r) (remove_templates c) in
  arrange toggle (JDict items)
    = Ok (if eq_zero (dict_get items (lit "results") (JInt 1))
          then swapped else kept)
  /\ (has_key items (lit "results") = false ->
      arrange toggle (JDict items) = Ok kept)
  /\ (forall n : Z,
        dict_get items (lit "results") (JInt 1) = JInt n ->
        (n = 0%Z -> arrange toggle (JDict items) = Ok swapped)
        /\ (n <> 0%Z -> arrange toggle (JDict items) = Ok kept))
  /\ (if toggle then b_text swapped else a_text swapped) = remove_templates c
  /\ (if toggle then a_text swapped else b_text swapped) = remove_templates r
  /\ (if toggle then b_text kept else a_text kept) = remove_templates r
  /\ (if toggle then a_text kept else b_text kept) = remove_templates c.
Proof.
  intros Hp Hc Hr instruction kept swapped.
  assert (A : arrange toggle (JDict items)
              = Ok (if eq_zero (dict_get items (lit "results") (JInt 1))
                    then swapped else kept)).
  { unfold arrange, get. cbn [bind]. rewrite Hp, Hc, Hr.
    cbn [bind expect_str]. unfold correct_pair.
    now destruct (eq_zero _). }
  split; [exact A|]. split; [|split].
  - intros Habs. rewrite A, (dict_get_absent _ _ _ Habs). reflexivity.
  - intros n Hn. rewrite A, Hn. cbn [eq_zero]. split.
    + intros ->. reflexivity.
    + intros Hz. apply Z.eqb_neq in Hz. now rewrite Hz.
  - subst kept swapped. now destruct toggle.
Qed.

Lemma swap_on_results_zero_witness :
  arrange true (haiku_record 0)
  = Ok (place true (lit "Write a haiku.") (lit "B") (lit "A")).
Proof.
  destruct (@swap_on_results_zero true
              [(lit "prompt", JStr haiku_prompt);
               (lit "chosen", JStr (lit "<|x|>A<|/x|>"));
               (lit "rejected", JStr (lit "<|x|>B<|/x|>"));
               (lit "results", JInt 0)]
              haiku_prompt (lit "<|x|>A<|/x|>") (lit "<|x|>B<|/x|>")
              eq_refl eq_refl eq_refl) as (_ & _ & H & _).
  exact (proj1 (H 0%Z eq_refl) eq_refl).
Defined.

(** ** The regular expression of the instruction *)

Lemma startswith_app (p r : pystr) : startswith p (p ++ r) = true.
Proof.
  induction p as [|a p IH]; [reflexivity|].
  cbn [startswith app]. unfold char_eqb. now rewrite N.eqb_refl.
Qed.

Lemma startswith_inv (p : pystr) : forall s,
  startswith p s = true -> s = p ++ skipn (length p) s.
Proof.
  induction p as [|a p IH]; intros [|b s] H; try reflexivity;
    [discriminate|].
  cbn [startswith] in H. apply andb_prop in H as [E H].
  apply N.eqb_eq in E. subst b. cbn [length skipn app]. f_equal.
  now apply IH.
Qed.

Lemma skipn_prefix (p r : pystr) : skipn (length p) (p ++ r) = r.
Proof. induction p as [|a p IH]; [reflexivity | exact IH]. Qed.

Lemma lazy_until_eq (close s : pystr) :
  lazy_until close s =
    if startswith close s then Some []
    else match s with
         | [] => None
         | c :: s' => option_map (cons c) (lazy_until close s')
         end.
Proof. now destruct s. Qed.

(** The lazy group captures the shortest text that is followed by the
    closing marker. *)
Lemma lazy_until_some (close s : pystr) : forall g,
  lazy_until close s = Some g ->
  (exists post, s = g ++ close ++ post)
  /\ forall g' post', s = g' ++ close ++ post' -> length g <= length g'.
Proof.
  induction s as [|c s IH]; intros g; rewrite lazy_until_eq.
  - destruct (startswith close []) eqn:S; [|discriminate].
    intros H. injection H as <-. split; [|simpl; lia].
    exists (skipn (length close) []). now apply startswith_inv.
  - destruct (startswith close (c :: s)) eqn:S.
    + intros H. injection H as <-. split; [|simpl; lia].
      exists (skipn (length close) (c :: s)). now apply startswith_inv.
    + destruct (lazy_until close s) as [g0|] eqn:L; [|discriminate].
      cbn [option_map]. intros H. injection H as <-.
      destruct (IH g0 eq_refl) as [[post E] Min]. split.
      * exists post. cbn [app]. now f_equal.
      * intros [|c' g'] post' E'.
        -- cbn [app] in E'. rewrite E', startswith_app in S. discriminate.
        -- cbn [app] in E'. injection E' as _ E'.
           specialize (Min g' post' E'). simpl. lia.
Qed.

Lemma lazy_until_none (close s : pystr) :
  lazy_until close s = None ->
  forall g post, s <> g ++ close ++ post.
Proof.
  induction s as [|c s IH]; rewrite lazy_until_eq.
  - destruct (startswith close []) eqn:S; [discriminate|].
    intros _ [|c g] post E; [|discriminate].
    cbn [app] in E. rewrite E, startswith_app in S. discriminate.
  - destruct (startswith close (c :: s)) eqn:S; [discriminate|].
    destruct (lazy_until close s) as [g0|] eqn:L; [discriminate|].
    intros _ [|c' g] post E.
    + cbn [app] in E. rewrite E, startswith_app in S. discriminate.
    + cbn [app] in E. injection E as _ E. exact (IH eq_refl g post E).
Qed.

Lemma match_instruction_some (s g : pystr) :
  match_instruction s = Some g ->
  (exists post, s = user_open ++ g ++ eot ++ post)
  /\ forall g' post',
       s = user_open ++ g' ++ eot ++ post' -> length g <= length g'.
Proof.
  unfold match_instruction.
  destruct (startswith user_open s) eqn:S; [|discriminate].
  intros L. apply startswith_inv in S.
  destruct (lazy_until_some _ _ L) as [[post E] Min]. split.
  - exists post. now rewrite S, E at 1.
  - intros g' post' E'. apply (Min g' post').
    now rewrite E', skipn_prefix.
Qed.

Lemma match_instruction_none (s : pystr) :
  match_instruction s = None ->
  forall g post, s <> user_open ++ g ++ eot ++ post.
Proof.
  unfold match_instruction. intros H g post E.
  rewrite E, startswith_app, skipn_prefix in H.
  exact (lazy_until_none _ H g post eq_refl).
Qed.

Lemma search_instruction_eq (prompt : pystr) :
  search_instruction prompt =
    match match_instruction prompt with
    | Some g => Some g
    | None =>
        match prompt with
        | [] => None
        | _ :: rest => search_instruction rest
        end
    end.
Proof. now destruct prompt. Qed.

(** [re.search] returns the leftmost match, and at that place the
    shortest one. *)
Lemma search_instruction_some (prompt : pystr) : forall g,
  search_instruction prompt = Some g ->
  exists pre post,
    prompt = pre ++ user_open ++ g ++ eot ++ post
    /\ forall pre' g' post',
         prompt = pre' ++ user_open ++ g' ++ eot ++ post' ->
         length pre <= length pre'
         /\ (length pre' = length pre -> length g <= length g').
Proof.
  induction prompt as [|c rest IH]; intros g; rewrite search_instruction_eq.
  - destruct (match_instruction []) as [g0|] eqn:M; [|discriminate].
    intros H. injection H as <-.
    destruct (match_instruction_some _ M) as [[post E] Min].
    exists [], post. split; [exact E|].
    intros [|c' pre'] g' post' E'; [|discriminate].
    split; [simpl; lia|]. intros _. exact (Min g' post' E').
  - destruct (match_instruction (c :: rest)) as [g0|] eqn:M.
    + intros H. injection H as <-.
      destruct (match_instruction_some _ M) as [[post E] Min].
      exists [], post. split; [exact E|].
      intros pre' g' post' E'. split; [simpl; lia|].
      intros L. destruct pre'; [|discriminate]. exact (Min g' post' E').
    + intros H. destruct (IH g H) as (pre & post & E & Min).
      exists (c :: pre), post. split; [cbn [app]; now f_equal|].
      intros [|c' pre'] g' post' E'.
      * exfalso. exact (match_instruction_none M g' post' E').
      * cbn [app] in E'. injection E' as _ E'.
        destruct (Min pre' g' post' E') as [Le Sh]. split; [simpl; lia|].
        intros L. apply Sh. simpl in L. lia.
Qed.

Lemma search_instruction_none (prompt : pystr) :
  search_instruction prompt = None ->
  forall pre g post, prompt <> pre ++ user_open ++ g ++ eot ++ post.
Proof.
  induction prompt as [|c rest IH]; rewrite search_instruction_eq.
  - destruct (match_instruction []) eqn:M; [discriminate|].
    intros _ [|c' pre] g post E; [|discriminate].
    exact (match_instruction_none M g post E).
  - destruct (match_instruction (c :: rest)) eqn:M; [discriminate|].
    intros H [|c' pre] g post E.
    + exact (match_instruction_none M g post E).
    + cbn [app] in E. injection E as _ E. exact (IH H pre g post E).
Qed.

(** ** Records with a missing field or a missing instruction *)

Section Records.

Variable json_loads : pystr -> option json.

(** A line that decodes to a dict whose text fields are strings, or absent,
    yields one record, and the toggle is inverted. *)
Lemma process_line_record (n : nat) (line : pystr) (st : run_state)
  (items : list (pystr * json)) :
  strip line <> [] ->
  json_loads (strip line) = Some (JDict items) ->
  text_fields items = true ->
  process_line json_loads n line st =
    Ok {| output_data :=
            output_data st
              ++ [output_entry
                    (place (toggle st)
                       (extract_instruction
                          (field_text (JDict items) (lit "prompt")))
                       (fst (corrected (JDict items)))
                       (snd (corrected (JDict items))))];
          toggle := negb (toggle st);
          printed := printed st |}.
Proof.
  intros NB J T. unfold process_line.
  destruct (strip line) as [|c l]; [contradiction|].
  now rewrite J, (arrange_record _ _ T).
Qed.

(** C8: a record is emitted whether or not the prompt holds an instruction
    span.  Without a span between the user-turn opening and the end of
    turn, its instruction is empty; with one, the instruction is the
    stripped text of the leftmost span, closed at the first end of turn. *)
Theorem instruction_defaults_to_empty (n : nat) (line : pystr)
  (st : run_state) (items : list (pystr * json)) :
  strip line <> [] ->
  json_loads (strip line) = Some (JDict items) ->
  text_fields items = true ->
  let data := JDict items in
  let prompt := field_text data (lit "prompt") in
  exists instruction,
    process_line json_loads n line st =
      Ok {| output_data :=
              output_data st
                ++ [output_entry
                      (place (toggle st) instruction
                         (fst (corrected data)) (snd (corrected data)))];
            toggle := negb (toggle st);
            printed := printed st |}
    /\ ((forall pre mid post,
            prompt <> pre ++ user_open ++ mid ++ eot ++ post) ->
        instruction = [])
    /\ forall pre mid post,
         prompt = pre ++ user_open ++ mid ++ eot ++ post ->
         exists pre0 mid0 post0,
           prompt = pre0 ++ user_open ++ mid0 ++ eot ++ post0
           /\ instruction = remove_templates mid0
           /\ forall pre' mid' post',
                prompt = pre' ++ user_open ++ mid' ++ eot ++ post' ->
                length pre0 <= length pre'
                /\ (length pre' = length pre0 ->
                    length mid0 <= length mid').
Proof.
  intros NB J T data prompt.
  exists (extract_instruction prompt).
  split; [exact (process_line_record n line st NB J T)|].
  unfold extract_instruction.
  destruct (search_instruction prompt) as [g|] eqn:S; split.
  - intros No. exfalso.
    destruct (search_instruction_some _ S) as (pre & post & E & _).
    exact (No pre g post E).
  - intros _ _ _ _.
    destruct (search_instruction_some _ S) as (pre & post & E & Min).
    now exists pre, g, post.
  - reflexivity.
  - intros pre mid post E. exfalso.
    exact (search_instruction_none S _ _ _ E).
Qed.

(** C10 (as amended): a line that decodes to a dict in which each of
    [prompt], [chosen] and [rejected] is a string or is absent yields a
    record, and an absent field counts as the empty string. *)
Theorem missing_fields_default (n : nat) (line : pystr) (st : run_state)
  (items : list (pystr * json)) :
  strip line <> [] ->
  json_loads (strip line) = Some (JDict items) ->
  text_fields items = true ->
  (exists s,
      arrange (toggle st) (JDict items) = Ok s
      /\ process_line json_loads n line st =
           Ok {| output_data := output_data st ++ [output_entry s];
                 toggle := negb (toggle st);
                 printed := printed st |})
  /\ forall key,
       In key [lit "prompt"; lit "chosen"; lit "rejected"] ->
       has_key items key = false ->
       field_text (JDict items) key = []
       /\ arrange (toggle st) (JDict ((key, JStr []) :: items))
          = arrange (toggle st) (JDict items).
Proof.
  intros NB J T. split.
  - eexists. split; [exact (arrange_record _ _ T)|].
    exact (process_line_record n line st NB J T).
  - intros key K A. split.
    + unfold field_text. now rewrite (dict_get_absent _ _ _ A).
    + unfold arrange, get. cbn [bind dict_get].
      destruct K as [<- | [<- | [<- | []]]];
        repeat match goal with
               | |- context [pystr_eqb (lit ?a) (lit ?b)] =>
                   let v := eval vm_compute in (pystr_eqb (lit a) (lit b)) in
                   change (pystr_eqb (lit a) (lit b)) with v
               end;
        cbv iota; now rewrite (dict_get_absent _ _ _ A).
Qed.

End Records.

Lemma instruction_defaults_to_empty_witness :
  process_line sample_loads 5 bare_line initial_state =
    Ok {| output_data :=
            [output_entry (place true [] (lit "A") [])];
          toggle := false;
          printed := [] |}.
Proof.
  destruct (@instruction_defaults_to_empty sample_loads 5 bare_line
              initial_state [(lit "chosen", JStr (lit "A"))])
    as (instruction & P & No & _).
  - vm_compute. discriminate.
  - reflexivity.
  - reflexivity.
  - rewrite P, No; [reflexivity|].
    intros [|c pre] mid post E; vm_compute in E; discriminate.
Defined.

Lemma missing_fields_default_witness :
  exists s,
    arrange true bare_record = Ok s
    /\ process_line sample_loads 5 bare_line initial_state =
         Ok {| output_data := [output_entry s];
               toggle := false;
               printed := [] |}.
Proof.
  refine (proj1 (@missing_fields_default sample_loads 5 bare_line
                   initial_state [(lit "chosen", JStr (lit "A"))] _ _ _)).
  - vm_compute. discriminate.
  - reflexivity.
  - reflexivity.
Defined.

(** C10 (as stated) fails: the line [{"chosen": null}] is valid JSON and
    has no [prompt] and no [rejected] key; the stripper is handed [None]
    and raises, and the run ends without a record. *)
Lemma null_field_raises :
  sample_loads (strip null_line) = Some (JDict [(lit "chosen", JNull)])
  /\ has_key [(lit "chosen", JNull)] (lit "prompt") = false
  /\ has_key [(lit "chosen", JNull)] (lit "rejected") = false
  /\ process_line sample_loads 1 null_line initial_state = Raise TypeError
  /\ process_file sample_loads [null_line] = Raise TypeError.
Proof. repeat split. Qed.

(** ** The benchmark scorer *)

Lemma sum_from (l : list Z) : forall a : Z,
  fold_left Z.add l a = (a + sum l)%Z.
Proof.
  unfold sum. induction l as [|x l IH]; intros a; cbn [fold_left].
  - lia.
  - rewrite (IH (a + x)%Z), (IH (0 + x)%Z). lia.
Qed.

Lemma sum_indicator (pairs : list (score * score)) :
  sum (map indicator pairs) = Z.of_nat (wins pairs).
Proof.
  unfold wins. induction pairs as [|p pairs IH]; [reflexivity|].
  unfold sum in *. cbn [map fold_left filter]. rewrite sum_from.
  unfold sum, indicator at 1. rewrite IH.
  destruct (gt (fst p) (snd p)); cbn [length]; lia.
Qed.



Lemma lookup_remove_other (path other : string) (fs : filesystem) :
  String.eqb other path = false ->
  lookup path (remove other fs) = lookup path fs.
Proof.
  intros N. induction fs as [|[p f] fs IH]; [reflexivity|].
  cbn [remove lookup].
  destruct (String.eqb p other) eqn:E.
  - apply String.eqb_eq in E. subst p. now rewrite N.
  - cbn [lookup]. now rewrite IH.
Qed.

Lemma lookup_write_other (path other : string) (f : file) (fs : filesystem) :
  String.eqb other path = false ->
  lookup path (write_file other f fs) = lookup path fs.
Proof.
  intros N. unfold write_file. cbn [lookup]. rewrite N.
  now apply lookup_remove_other.
Qed.


Section Scoring.

Variable text : Type.
Variable reward_pipe : list text -> rewards.

(** The loop appends, batch after batch, one result per scored pair. *)
Lemma run_inference_results (dataloader : list (batch text)) : forall t t',
  run_inference reward_pipe dataloader t = inr t' ->
  results t' = results t ++ map indicator (all_pairs reward_pipe dataloader).
Proof.
  induction dataloader as [|b rest IH]; intros t t' H.
  - injection H as <-. cbn. now rewrite app_nil_r.
  - cbn [run_inference] in H. unfold all_pairs. cbn [flat_map].
    unfold batch_pairs at 1.
    destruct (score_batch reward_pipe b) as [e|[cs rs]]; [discriminate|].
    rewrite (IH _ _ H). cbn [results]. unfold log_results.
    now rewrite map_app, app_assoc.
Qed.

Lemma accuracy_of_pairs (pairs : list (score * score)) :
  accuracy_of (map indicator pairs)
  = quotient (Z.of_nat (wins pairs)) (Z.of_nat (length pairs)).
Proof. unfold accuracy_of. now rewrite sum_indicator, length_map. Qed.

Lemma quotient_defined (a : Z) (n : nat) :
  n <> 0 ->
  quotient a (Z.of_nat n) = Some (inject_Z a / inject_Z (Z.of_nat n))%Q.
Proof.
  intros N. unfold quotient.
  destruct (Z.eqb_spec (Z.of_nat n) 0) as [E|_]; [lia | reflexivity].
Qed.

(** The division raises [ZeroDivisionError] for a zero divisor only. *)
Lemma true_div_zero (a b : Z) :
  true_div a b = inl ZeroDivisionError <-> b = 0%Z.
Proof.
  unfold true_div. destruct (Z.eqb_spec b 0) as [E|N].
  - now split.
  - split; [|contradiction].
    destruct (SpecFloat.SFdiv _ _ _ _); discriminate.
Qed.

(** No win at all is an accuracy of 0.0. *)
Lemma true_div_no_win (b : Z) :
  b <> 0%Z -> true_div 0 b = inr 0%float \/ true_div 0 b = inr (-0)%float.
Proof.
  intros N. unfold true_div.
  destruct (Z.eqb_spec b 0) as [E|_]; [contradiction|].
  destruct b; [contradiction | left | right]; reflexivity.
Qed.

(** The division on some counts, with the floats Python prints for them;
    a quotient too small for a float is 0.0, one too large is refused. *)
Example true_div_samples :
  true_div 1 3 = inr 0.3333333333333333%float
  /\ true_div 2 3 = inr 0.6666666666666666%float
  /\ true_div 5 7 = inr 0.7142857142857143%float
  /\ true_div 3 3 = inr 1%float
  /\ true_div (-1) 3 = inr (-0.3333333333333333)%float
  /\ true_div (2 ^ 53 + 1) 1 = inr 9007199254740992%float
  /\ true_div (10 ^ 400) (10 ^ 399) = inr 10%float
  /\ true_div 1 (10 ^ 400) = inr 0%float
  /\ true_div (2 ^ 1024) 1 = inl OverflowError.
Proof. repeat split; vm_compute; reflexivity. Qed.

Lemma has_slash_app (p s : string) :
  has_slash (p ++ s) = has_slash p || has_slash s.
Proof.
  induction p as [|c p IH]; [reflexivity|].
  cbn [String.append has_slash]. now rewrite IH, orb_assoc.
Qed.

(** What follows the last slash does not count for the head. *)
Lemma head_part_suffix (p s : string) :
  has_slash s = false -> head_part (p ++ s) = head_part p.
Proof.
  intros N. induction p as [|c p IH].
  - destruct s as [|c s]; [reflexivity|].
    cbn [String.append head_part]. now rewrite N.
  - cbn [String.append head_part has_slash].
    now rewrite has_slash_app, N, orb_false_r, IH.
Qed.

Lemma string_app_assoc (x y z : string) :
  (x ++ y ++ z)%string = ((x ++ y) ++ z)%string.
Proof.
  induction x as [|c x IH]; [reflexivity|].
  cbn [String.append]. now rewrite IH.
Qed.

(** The two files of [main] stand in the same directory. *)
Lemma dirname_all_path (a : args) :
  dirname (all_path a) = dirname (summary_path a).
Proof.
  unfold dirname, all_path, summary_path.
  rewrite (string_app_assoc (output_dir a) (model a) ".json").
  rewrite (string_app_assoc (output_dir a) (model a) "_all.jsonl").
  rewrite (@head_part_suffix (output_dir a ++ model a) ".json" eq_refl).
  rewrite (@head_part_suffix (output_dir a ++ model a) "_all.jsonl" eq_refl).
  reflexivity.
Qed.




(** C9: when no pair was scored the division of the accuracy is a
    division by zero, and [main] ends with it leaving the files as they
    were; with at least one pair the quotient is defined and [main] does
    not end with a division by zero. *)
Theorem no_pairs_division_by_zero (a : args)
  (dataloader : list (batch text)) (fs : filesystem) (t : tally) :
  run_inference reward_pipe dataloader empty_tally = inr t ->
  let pairs := all_pairs reward_pipe dataloader in
  (pairs = [] ->
   accuracy_of (results t) = None
   /\ true_div (sum (results t)) (Z.of_nat (length (results t)))
      = inl ZeroDivisionError
   /\ main reward_pipe a false dataloader fs = (fs, Some ZeroDivisionError))
  /\ (pairs <> [] ->
      (exists q, accuracy_of (results t) = Some q)
      /\ true_div (sum (results t)) (Z.of_nat (length (results t)))
         <> inl ZeroDivisionError
      /\ snd (main reward_pipe a false dataloader fs)
         <> Some ZeroDivisionError).
Proof.
  intros R pairs.
  pose proof (run_inference_results _ _ R) as E. cbn in E. fold pairs in E.
  split.
  - intros Z. rewrite Z in E. cbn in E.
    assert (A : true_div (sum (results t)) (Z.of_nat (length (results t)))
                = inl ZeroDivisionError) by now rewrite E.
    split; [now rewrite E|]. split; [exact A|].
    unfold main. now rewrite R, A.
  - intros NE.
    assert (L : length pairs <> 0)
      by (destruct pairs; [congruence | discriminate]).
    assert (N : true_div (sum (results t)) (Z.of_nat (length (results t)))
                <> inl ZeroDivisionError).
    { rewrite true_div_zero, E, length_map. lia. }
    split; [|split; [exact N|]].
    + eexists. rewrite E, accuracy_of_pairs. now apply quotient_defined.
    + unfold main. rewrite R.
      destruct (true_div (sum (results t)) (Z.of_nat (length (results t))))
        as [e|accuracy]; cbn [snd]; [congruence|].
      rewrite dirname_all_path.
      destruct (makedirs (dirname (summary_path a))) as [e|] eqn:M.
      * unfold makedirs in M. destruct (dirname (summary_path a));
          [injection M as <-|]; discriminate.
      * destruct (save_all a); discriminate.
Qed.

(** The [_all.jsonl] file has one line for each pair of the two score
    lists, and every line holds the two lists whole. *)
Lemma all_lines_repeat (t : tally) :
  all_lines t
  = repeat (scores_chosen t, scores_rejected t)
      (length (combine (scores_chosen t) (scores_rejected t))).
Proof.
  unfold all_lines.
  induction (combine (scores_chosen t) (scores_rejected t)) as [|p l IH];
    [reflexivity|].
  cbn [map length repeat]. now rewrite IH.
Qed.

End Scoring.


Lemma no_pairs_division_by_zero_witness :
  main sample_pipe sample_args false [] [] = ([], Some ZeroDivisionError).
Proof.
  refine (proj2 (proj2 (proj1 (@no_pairs_division_by_zero string sample_pipe
                                 sample_args [] [] empty_tally _) _))).
  - reflexivity.
  - reflexivity.
Defined.

(** C5 on the sample run: the [_all.jsonl] file has two lines, and each
    of them holds both chosen scores and both rejected scores, not the
    scores of its own pair. *)
Theorem save_all_lines_hold_whole_lists :
  lookup "results/rm_all.jsonl"
    (fst (main sample_pipe sample_args false sample_dataloader []))
  = Some (ScoreLines
            [([0.9; 0.1]%float, [0.2; 0.8]%float);
             ([0.9; 0.1]%float, [0.2; 0.8]%float)])
  /\ all_pairs sample_pipe sample_dataloader
     = [(0.9, 0.2)%float; (0.1, 0.8)%float].
Proof. split; reflexivity. Qed.

(** * Further properties *)

(** ** The template stripper *)

Lemma subsequence_refl (s : pystr) : subsequence s s.
Proof. induction s; constructor; assumption. Qed.

Lemma subsequence_nil_l (s : pystr) : subsequence [] s.
Proof. induction s; constructor; assumption. Qed.

Lemma subsequence_trans (s t u : pystr) :
  subsequence s t -> subsequence t u -> subsequence s u.
Proof.
  intros H1 H2. revert s H1.
  induction H2 as [|c t u _ IH|c t u _ IH]; intros s H1.
  - exact H1.
  - inversion H1; subst.
    + apply subsequence_keep, IH. assumption.
    + apply subsequence_drop, IH. assumption.
  - apply subsequence_drop, IH. exact H1.
Qed.

Lemma subsequence_length (s t : pystr) :
  subsequence s t -> length s <= length t.
Proof. induction 1; simpl; lia. Qed.

Lemma lstrip_subsequence (s : pystr) : subsequence (lstrip s) s.
Proof.
  induction s as [|c s IH]; simpl; [constructor|].
  destruct (isspace c).
  - now apply subsequence_drop.
  - apply subsequence_refl.
Qed.

Lemma rstrip_subsequence (s : pystr) : subsequence (rstrip s) s.
Proof.
  induction s as [|c s IH]; simpl; [constructor|].
  destruct (rstrip s) as [|x r].
  - destruct (isspace c).
    + apply subsequence_nil_l.
    + apply subsequence_keep, subsequence_nil_l.
  - now apply subsequence_keep.
Qed.

Lemma sub_scan_subsequence (s : pystr) : forall skip,
  subsequence (sub_scan skip s) s.
Proof.
  induction s as [|c s IH]; intros skip; [constructor|].
  cbn [sub_scan]. destruct skip as [|k].
  - destruct (match_marker (c :: s)) as [n|].
    + apply subsequence_drop, IH.
    + apply subsequence_keep, IH.
  - apply subsequence_drop, IH.
Qed.

(** X1: the stripper only deletes: its result is the text with some
    characters left out, in the same order, so it is never longer. *)
Theorem remove_templates_only_deletes (s : pystr) :
  subsequence (remove_templates s) s
  /\ length (remove_templates s) <= length s.
Proof.
  assert (H : subsequence (remove_templates s) s).
  { unfold remove_templates, strip, re_sub_marker.
    eapply subsequence_trans; [apply rstrip_subsequence|].
    eapply subsequence_trans; [apply lstrip_subsequence|].
    apply sub_scan_subsequence. }
  split; [exact H | exact (subsequence_length H)].
Qed.

Lemma rstrip_last (s : pystr) : forall d,
  rstrip s = [] \/ isspace (last (rstrip s) d) = false.
Proof.
  induction s as [|c s IH]; intros d; simpl; [now left|].
  destruct (rstrip s) as [|x r] eqn:R.
  - destruct (isspace c) eqn:E; [now left | right; exact E].
  - right. destruct (IH d) as [H|H]; [discriminate|].
    exact H.
Qed.

(** X2: the result of the stripper has no whitespace at either end. *)
Theorem remove_templates_trimmed (s : pystr) :
  trimmed (remove_templates s) = true.
Proof.
  unfold remove_templates, strip. set (t := re_sub_marker s).
  destruct (lstrip_head t) as [E | (c & r & E & Hc)]; rewrite E.
  - reflexivity.
  - destruct (rstrip_nonspace c r Hc) as [r' R].
    destruct (rstrip_last (c :: r) c) as [H|H]; [rewrite R in H; discriminate|].
    rewrite R in *. unfold trimmed. now rewrite Hc, H.
Qed.

Lemma marker_open_chars : marker_open = [60; 124]%N.
Proof. reflexivity. Qed.

Lemma marker_close_chars : marker_close = [124; 62]%N.
Proof. reflexivity. Qed.

Lemma lazy_close_occurs (s : pystr) : forall n,
  lazy_close s = Some n -> exists a b, s = a ++ marker_close ++ b.
Proof.
  induction s as [|c s IH]; intros n; [discriminate|].
  cbn [lazy_close].
  destruct (startswith marker_close (c :: s)) eqn:S.
  - intros _. exists [], (skipn (length marker_close) (c :: s)).
    now apply startswith_inv.
  - destruct (char_eqb c newline); [discriminate|].
    destruct (lazy_close s) as [m|]; [|discriminate].
    intros _. destruct (IH m eq_refl) as (a & b & ->).
    now exists (c :: a), b.
Qed.

Lemma match_marker_occurs (s : pystr) (n : nat) :
  match_marker s = Some n ->
  (exists post, s = marker_open ++ post)
  /\ exists a b, s = a ++ marker_close ++ b.
Proof.
  unfold match_marker.
  destruct (startswith marker_open s) eqn:S; [|discriminate].
  apply startswith_inv in S.
  destruct (lazy_close (skipn 2 s)) as [m|] eqn:L; [|discriminate].
  intros _. split; [eexists; exact S|].
  destruct (lazy_close_occurs _ L) as (a & b & E).
  exists (marker_open ++ a), b. rewrite S at 1.
  change (length marker_open) with 2. rewrite E. now rewrite <- app_assoc.
Qed.

Lemma contains_marker_occurs (s : pystr) :
  contains_marker s = true ->
  (exists pre post, s = pre ++ marker_open ++ post)
  /\ exists pre post, s = pre ++ marker_close ++ post.
Proof.
  induction s as [|c s IH]; [discriminate|].
  cbn [contains_marker].
  destruct (match_marker (c :: s)) as [n|] eqn:M.
  - intros _. destruct (match_marker_occurs _ M) as [[post E] (a & b & E')].
    split; [now exists [], post | now exists a, b].
  - intros H. destruct (IH H) as [(p1 & q1 & E1) (p2 & q2 & E2)].
    split; [exists (c :: p1), q1 | exists (c :: p2), q2];
      cbn [app]; now f_equal.
Qed.

(** X3: a text in which [<|] does not occur, or in which [|>] does not
    occur, loses nothing but the whitespace at its ends. *)
Theorem remove_templates_without_marker (s : pystr) :
  (forall pre post, s <> pre ++ marker_open ++ post)
  \/ (forall pre post, s <> pre ++ marker_close ++ post) ->
  remove_templates s = strip s.
Proof.
  intros H. unfold remove_templates, re_sub_marker.
  rewrite sub_scan_no_marker; [reflexivity|].
  destruct (contains_marker s) eqn:C; [exfalso | reflexivity].
  destruct (contains_marker_occurs _ C) as [(p1 & q1 & E1) (p2 & q2 & E2)].
  destruct H as [H|H]; [exact (H _ _ E1) | exact (H _ _ E2)].
Qed.

Lemma remove_templates_without_marker_witness :
  remove_templates (lit "  a > b |> c ") = lit "a > b |> c".
Proof.
  rewrite remove_templates_without_marker; [reflexivity|].
  left. intros pre post E.
  assert (In 60%N (lit "  a > b |> c ")) as I.
  { rewrite E. apply in_or_app. right. now left. }
  vm_compute in I. intuition discriminate.
Defined.

Lemma sub_scan_skip (a b : pystr) :
  sub_scan (length a) (a ++ b) = sub_scan 0 b.
Proof. induction a as [|c a IH]; [reflexivity | exact IH]. Qed.

Lemma match_marker_other (c : char) (s : pystr) :
  c <> 60%N -> match_marker (c :: s) = None.
Proof.
  intros N. unfold match_marker. rewrite marker_open_chars.
  cbn [startswith]. unfold char_eqb.
  destruct (N.eqb_spec 60 c) as [E|_]; [now subst | reflexivity].
Qed.

(** Text without [<] is copied by the scan. *)
Lemma sub_scan_plain (pre rest : pystr) :
  ~ In 60%N pre -> sub_scan 0 (pre ++ rest) = pre ++ sub_scan 0 rest.
Proof.
  induction pre as [|c pre IH]; intros N; [reflexivity|].
  cbn [app sub_scan]. rewrite match_marker_other.
  - f_equal. apply IH. intros I. apply N. now right.
  - intros E. apply N. now left.
Qed.

Lemma startswith_close (c : char) (s : pystr) :
  startswith marker_close (c :: s) = true ->
  c = 124%N /\ exists s', s = 62%N :: s'.
Proof.
  rewrite marker_close_chars. cbn [startswith]. unfold char_eqb.
  destruct (N.eqb_spec 124 c) as [<-|_]; [|discriminate].
  destruct s as [|d s']; [discriminate|].
  destruct (N.eqb_spec 62 d) as [<-|_]; [|discriminate].
  intros _. split; [reflexivity | now exists s'].
Qed.

(** The lazy tail stops at the first [|>] when no [>] and no newline come
    before it. *)
Lemma lazy_close_mid (mid post : pystr) :
  ~ In newline mid -> ~ In 62%N mid ->
  lazy_close (mid ++ marker_close ++ post) = Some (length mid + 2).
Proof.
  induction mid as [|c mid IH]; intros Nn Ng.
  - cbn [app]. rewrite marker_close_chars. reflexivity.
  - cbn [app lazy_close length Nat.add].
    destruct (startswith marker_close (c :: mid ++ marker_close ++ post))
      eqn:S.
    + exfalso. apply startswith_close in S as [_ [s' E]].
      destruct mid as [|d mid]; cbn [app] in E.
      * rewrite marker_close_chars in E. discriminate.
      * injection E as -> _. apply Ng. right. now left.
    + unfold char_eqb. destruct (N.eqb_spec c newline) as [->|_].
      * exfalso. apply Nn. now left.
      * rewrite IH; [reflexivity | |]; intros I; [apply Nn | apply Ng];
          now right.
Qed.

(** The lazy tail gives up at a newline that comes before any [>]. *)
Lemma lazy_close_newline (mid rest : pystr) :
  ~ In 62%N mid -> lazy_close (mid ++ newline :: rest) = None.
Proof.
  induction mid as [|c mid IH]; intros Ng.
  - reflexivity.
  - cbn [app lazy_close].
    destruct (startswith marker_close (c :: mid ++ newline :: rest)) eqn:S.
    + exfalso. apply startswith_close in S as [_ [s' E]].
      destruct mid as [|d mid]; cbn [app] in E; [discriminate|].
      injection E as -> _. apply Ng. right. now left.
    + destruct (char_eqb c newline); [reflexivity|].
      rewrite IH; [reflexivity|]. intros I. apply Ng. now right.
Qed.

(** X4: a marker whose inside has no newline and no [>] is removed whole,
    the text before it is kept when it has no [<], and the scan goes on
    after the marker. *)
Theorem remove_templates_marker (pre mid post : pystr) :
  ~ In 60%N pre -> ~ In newline mid -> ~ In 62%N mid ->
  remove_templates (pre ++ marker_open ++ mid ++ marker_close ++ post)
  = strip (pre ++ re_sub_marker post).
Proof.
  intros Np Nn Ng. unfold remove_templates, re_sub_marker. f_equal.
  rewrite (sub_scan_plain _ _ Np). f_equal.
  rewrite marker_open_chars. cbn [app sub_scan].
  unfold match_marker. rewrite marker_open_chars. cbn [startswith skipn].
  unfold char_eqb. rewrite !N.eqb_refl. cbn [andb].
  rewrite (lazy_close_mid _ post Nn Ng). cbn [option_map Nat.add Nat.pred].
  replace (length mid + 2) with (length (mid ++ marker_close))
    by (rewrite length_app; reflexivity).
  rewrite app_assoc. apply sub_scan_skip.
Qed.

Lemma remove_templates_marker_witness :
  remove_templates (lit "A " ++ marker_open ++ lit "/x" ++ marker_close
                      ++ lit " B")
  = lit "A  B".
Proof.
  rewrite remove_templates_marker; [reflexivity | | |];
    intros I; vm_compute in I; intuition discriminate.
Defined.

Lemma sub_scan_keep (c : char) (s : pystr) :
  match_marker (c :: s) = None -> sub_scan 0 (c :: s) = c :: sub_scan 0 s.
Proof. intros M. change (sub_scan 0 (c :: s)) with
    (match match_marker (c :: s) with
     | Some n => sub_scan (pred n) s
     | None => c :: sub_scan 0 s
     end). now rewrite M. Qed.

(** X5: a marker is never matched across a line break: an opening [<|]
    followed by a newline before any [>] is kept, with the rest of its
    line. *)
Theorem remove_templates_keeps_open_line (mid rest : pystr) :
  ~ In 60%N mid -> ~ In 62%N mid ->
  match_marker (marker_open ++ mid ++ newline :: rest) = None
  /\ re_sub_marker (marker_open ++ mid ++ newline :: rest)
     = marker_open ++ mid ++ newline :: re_sub_marker rest.
Proof.
  intros Nl Ng.
  assert (M : match_marker (marker_open ++ mid ++ newline :: rest) = None).
  { unfold match_marker. rewrite startswith_app.
    rewrite marker_open_chars. cbn [app skipn].
    now rewrite (lazy_close_newline _ rest Ng). }
  split; [exact M|]. unfold re_sub_marker.
  rewrite marker_open_chars in *. cbn [app] in *.
  rewrite (sub_scan_keep _ _ M). f_equal.
  assert (E : 124%N :: mid ++ newline :: rest
              = (124%N :: mid ++ [newline]) ++ rest)
    by (cbn [app]; now rewrite <- app_assoc).
  transitivity (sub_scan 0 ((124%N :: mid ++ [newline]) ++ rest));
    [f_equal; exact E|].
  rewrite sub_scan_plain.
  - cbn [app]. now rewrite <- app_assoc.
  - intros [H | I]; [discriminate|].
    apply in_app_or in I as [I | [H | []]]; [now apply Nl | discriminate].
Qed.

Lemma remove_templates_keeps_open_line_witness :
  re_sub_marker (lit "<|a" ++ [newline] ++ lit "b|>")
  = lit "<|a" ++ [newline] ++ lit "b|>".
Proof.
  exact (proj2 (@remove_templates_keeps_open_line (lit "a") (lit "b|>")
                  ltac:(vm_compute; intuition discriminate)
                  ltac:(vm_compute; intuition discriminate))).
Defined.

(** ** Whole runs of the reformatter *)

Section Runs.

Variable json_loads : pystr -> option json.

Lemma arranged_records (ds : list json) : forall t rs,
  arranged t ds rs -> forallb preference_record ds = true.
Proof.
  induction ds as [|d ds IH]; intros t [|r rs] H; simpl in H;
    try contradiction; [reflexivity|].
  destruct H as [(s & A & _) H]. cbn [forallb].
  now rewrite (arrange_inv _ _ A), (IH _ _ H).
Qed.

(** What a completed first loop tells: every decoded line was a
    preference record, the records are theirs in order, and the messages
    are those of the malformed lines. *)
Lemma collect_inv (infile : list pystr) (records : list entry)
  (log : list pystr) :
  collect json_loads infile = Ok (records, log) ->
  forallb preference_record (decoded json_loads infile) = true
  /\ arranged true (decoded json_loads infile) records
  /\ log = warnings json_loads 1 infile.
Proof.
  unfold collect.
  destruct (process_lines json_loads 1 infile initial_state) as [st|e] eqn:R;
    [|discriminate].
  cbn [bind]. intros H. injection H as <- <-.
  destruct (process_lines_shape _ _ _ _ R) as (rs & O & A & _ & P).
  cbn in O, A, P. rewrite O, P.
  split; [exact (arranged_records _ _ _ A) | now split].
Qed.

Lemma arrange_raises (toggle : bool) (data : json) (e : exn) :
  arrange toggle data = Raise e -> e = AttributeError \/ e = TypeError.
Proof.
  intros A.
  destruct data as [| | | | |l|items];
    try (cbn in A; injection A as <-; now left).
  unfold arrange, get in A. cbn [bind] in A.
  destruct (dict_get items (lit "prompt") (JStr []));
    cbn [expect_str bind] in A; try (injection A as <-; now right).
  destruct (dict_get items (lit "chosen") (JStr []));
    cbn [expect_str bind] in A; try (injection A as <-; now right).
  destruct (dict_get items (lit "rejected") (JStr []));
    cbn [expect_str bind] in A; try (injection A as <-; now right).
  destruct (correct_pair _ _ _). discriminate.
Qed.

Lemma process_lines_raises (infile : list pystr) : forall n st e,
  process_lines json_loads n infile st = Raise e ->
  e = AttributeError \/ e = TypeError.
Proof.
  induction infile as [|line rest IH]; intros n st e;
    cbn [process_lines]; [discriminate|].
  unfold process_line.
  destruct (strip line) as [|c l]; cbn [bind]; [apply IH|].
  destruct (json_loads (c :: l)) as [data|]; cbn [bind]; [|apply IH].
  destruct (arrange (toggle st) data) as [s|x] eqn:A; cbn [bind];
    [apply IH|].
  intros H. injection H as <-. exact (arrange_raises _ _ A).
Qed.

(** The first loop raises exactly when a decoded line is not a preference
    record. *)
Lemma collect_raises (infile : list pystr) (e : exn) :
  collect json_loads infile = Raise e ->
  forallb preference_record (decoded json_loads infile) = false
  /\ (e = AttributeError \/ e = TypeError).
Proof.
  intros R. split.
  - destruct (forallb preference_record (decoded json_loads infile)) eqn:F;
      [|reflexivity].
    rewrite forallb_forall in F. apply Forall_forall in F.
    destruct (collect_ok json_loads infile F) as (records & R' & _).
    rewrite R in R'. discriminate.
  - unfold collect in R.
    destruct (process_lines json_loads 1 infile initial_state) as [st|x]
      eqn:P; [discriminate|].
    injection R as <-. exact (process_lines_raises _ _ _ P).
Qed.

(** What a completed run tells. *)
Lemma process_file_inv (infile : list pystr) (records : list entry)
  (log : list pystr) :
  process_file json_loads infile = Ok (records, log) ->
  forallb preference_record (decoded json_loads infile) = true
  /\ arranged true (decoded json_loads infile) records
  /\ log = warnings json_loads 1 infile.
Proof.
  unfold process_file.
  destruct (collect json_loads infile) as [[rs g]|e] eqn:R; [|discriminate].
  cbn [bind fst]. destruct (snd (write_entries rs)); [discriminate|].
  intros H. injection H as <- <-. exact (collect_inv _ R).
Qed.

(** A run completes when its first loop does and the writing loop does
    not raise. *)
Lemma process_file_completes (infile : list pystr) (records : list entry)
  (log : list pystr) :
  process_file json_loads infile = Ok (records, log) <->
  collect json_loads infile = Ok (records, log)
  /\ snd (write_entries records) = false.
Proof.
  unfold process_file.
  destruct (collect json_loads infile) as [[rs g]|e]; cbn [bind fst].
  - destruct (snd (write_entries rs)) eqn:W; split.
    + discriminate.
    + intros [H W']. injection H as -> ->. congruence.
    + intros H. injection H as <- <-. now split.
    + intros [H _]. exact H.
  - split; [discriminate | intros [H _]; discriminate].
Qed.

Lemma written_all (rs : list entry) :
  snd (write_entries rs) = false -> written rs = rs.
Proof.
  induction rs as [|e rs IH]; [reflexivity|].
  cbn [write_entries written].
  destruct (encodable (json_dumps e ++ [newline])); [|discriminate].
  destruct (write_entries rs) as [text raised]. cbn [snd] in *.
  intros H. now rewrite (IH H).
Qed.

Lemma written_prefix (rs : list entry) :
  exists rest, rs = written rs ++ rest.
Proof.
  induction rs as [|e rs [rest IH]]; [now exists []|].
  cbn [written]. destruct (encodable (json_dumps e ++ [newline])).
  - exists rest. cbn [app]. now f_equal.
  - now exists (e :: rs).
Qed.

Lemma written_short (rs : list entry) :
  snd (write_entries rs) = true -> length (written rs) < length rs.
Proof.
  induction rs as [|e rs IH]; [discriminate|].
  cbn [write_entries written].
  destruct (encodable (json_dumps e ++ [newline])); [|cbn; lia].
  destruct (write_entries rs) as [text raised]. cbn [snd length] in *.
  intros H. specialize (IH H). lia.
Qed.

Lemma write_entries_app (rs1 rs2 : list entry) :
  snd (write_entries (rs1 ++ rs2))
  = snd (write_entries rs1) || snd (write_entries rs2).
Proof.
  induction rs1 as [|e rs1 IH]; [reflexivity|].
  cbn [app write_entries].
  destruct (encodable (json_dumps e ++ [newline])); [|reflexivity].
  destruct (write_entries (rs1 ++ rs2)), (write_entries rs1). exact IH.
Qed.

(** The records in the file after a run that completed are its
    records. *)
Lemma emitted_completed (infile : list pystr) (records : list entry)
  (log : list pystr) :
  process_file json_loads infile = Ok (records, log) ->
  emitted json_loads infile = records.
Proof.
  intros R. apply process_file_completes in R as [C W].
  unfold emitted. rewrite C. now apply written_all.
Qed.

(** X6: how a run ends.  If it completes, every decoded line was a
    preference record (a dict whose [prompt], [chosen] and [rejected] are
    strings or absent) and the file holds one record for each.  If it
    raises [UnicodeEncodeError], it does so in the writing loop: every
    decoded line was a preference record, and the file holds fewer
    records than lines were decoded.  If it raises [AttributeError] or
    [TypeError], it does so in the first loop: some decoded line is not a
    preference record, and no record at all is written, whatever came
    before the offending line. *)
Theorem run_completes_iff_records (infile : list pystr) :
  match process_file json_loads infile with
  | Ok (records, _) =>
      forallb preference_record (decoded json_loads infile) = true
      /\ length records = length (decoded json_loads infile)
      /\ emitted json_loads infile = records
  | Raise UnicodeEncodeError =>
      forallb preference_record (decoded json_loads infile) = true
      /\ length (emitted json_loads infile)
         < length (decoded json_loads infile)
  | Raise AttributeError | Raise TypeError =>
      forallb preference_record (decoded json_loads infile) = false
      /\ emitted json_loads infile = []
  end.
Proof.
  destruct (process_file json_loads infile) as [[records log]|e] eqn:R.
  - destruct (process_file_inv _ R) as (F & A & _).
    split; [exact F|]. split; [exact (arranged_length _ _ _ A)|].
    exact (emitted_completed _ R).
  - unfold process_file, emitted in *.
    destruct (collect json_loads infile) as [[rs g]|x] eqn:C;
      cbn [bind fst] in R.
    + destruct (snd (write_entries rs)) eqn:W; [|discriminate].
      injection R as <-.
      destruct (collect_inv _ C) as (F & A & _).
      split; [exact F|]. rewrite <- (arranged_length _ _ _ A).
      now apply written_short.
    + injection R as <-.
      destruct (collect_raises _ C) as [F [-> | ->]]; now split.
Qed.

Lemma warnings_length (infile : list pystr) : forall n,
  length (warnings json_loads n infile)
  = length (filter (malformed json_loads) infile).
Proof.
  induction infile as [|line rest IH]; intros n; [reflexivity|].
  cbn [warnings filter]. rewrite length_app, IH.
  now destruct (malformed json_loads line).
Qed.

Lemma warnings_nth (infile : list pystr) : forall n i line,
  nth_error infile i = Some line ->
  malformed json_loads line = true ->
  In (skipped_message (n + i) (strip line)) (warnings json_loads n infile).
Proof.
  induction infile as [|l rest IH]; intros n [|i] line H M;
    try discriminate; cbn [warnings nth_error] in *.
  - injection H as ->. rewrite M, Nat.add_0_r. now left.
  - apply in_or_app. right. rewrite <- Nat.add_succ_comm. now apply IH.
Qed.

(** A line is blank, or malformed, or decodes; one of the three. *)
Lemma line_cases (line : pystr) :
  (is_blank line = true /\ malformed json_loads line = false
   /\ decoded json_loads [line] = [])
  \/ (is_blank line = false /\ malformed json_loads line = true
      /\ decoded json_loads [line] = [])
  \/ (is_blank line = false /\ malformed json_loads line = false
      /\ exists data, decoded json_loads [line] = [data]).
Proof.
  unfold is_blank, malformed. cbn [decoded].
  destruct (strip line) as [|c l]; [now left|].
  destruct (json_loads (c :: l)) as [data|].
  - right. right. repeat split. now exists data.
  - right. now left.
Qed.

Lemma decoded_length (infile : list pystr) :
  length (decoded json_loads infile)
  + length (filter (malformed json_loads) infile)
  + length (filter is_blank infile)
  = length infile.
Proof.
  induction infile as [|line rest IH]; [reflexivity|].
  change (line :: rest) with ([line] ++ rest) at 1.
  rewrite decoded_app, length_app. cbn [filter length].
  destruct (line_cases line) as [(B & M & D) | [(B & M & D) | (B & M & d & D)]];
    rewrite B, M, D; cbn [length]; lia.
Qed.

(** X7: a completed run accounts for every line of the file: each line
    is blank, or gives one record, or gives one message; the message of a
    malformed line carries the position of the line in the file, blank
    lines counted. *)
Theorem run_accounts_for_every_line (infile : list pystr)
  (records : list entry) (log : list pystr) :
  process_file json_loads infile = Ok (records, log) ->
  length records + length log + length (filter is_blank infile)
    = length infile
  /\ length log = length (filter (malformed json_loads) infile)
  /\ forall i line,
       nth_error infile i = Some line ->
       malformed json_loads line = true ->
       In (skipped_message (S i) (strip line)) log.
Proof.
  intros R. destruct (process_file_inv _ R) as (_ & A & ->).
  rewrite (arranged_length _ _ _ A), warnings_length.
  split; [apply decoded_length|]. split; [reflexivity|].
  intros i line H M. exact (warnings_nth infile 1 i H M).
Qed.

(** X8: the records of a run depend on the decoded lines only: two files
    whose lines decode to the same values give the same records, whatever
    blank or malformed lines they hold and wherever these stand. *)
Theorem records_depend_on_decoded_lines (infile infile' : list pystr) :
  decoded json_loads infile = decoded json_loads infile' ->
  emitted json_loads infile = emitted json_loads infile'.
Proof.
  intros E. unfold emitted.
  destruct (collect json_loads infile) as [[rs g]|e] eqn:R;
    destruct (collect json_loads infile') as [[rs' g']|e'] eqn:R';
    try reflexivity.
  - destruct (collect_inv _ R) as (_ & A & _).
    destruct (collect_inv _ R') as (_ & A' & _).
    rewrite E in A. now rewrite (arranged_functional _ _ _ _ A A').
  - destruct (collect_inv _ R) as (F & _).
    destruct (collect_raises _ R') as [F' _]. rewrite E in F. congruence.
  - destruct (collect_inv _ R') as (F' & _).
    destruct (collect_raises _ R) as [F _]. rewrite E in F. congruence.
Qed.

Lemma labelled_alternating (rs : list entry) : forall t,
  map output rs = alternating t (length rs) ->
  length (labelled output_a rs)
  = (if t then Nat.div2 (S (length rs)) else Nat.div2 (length rs))
  /\ length (labelled output_b rs)
     = (if t then Nat.div2 (length rs) else Nat.div2 (S (length rs))).
Proof.
  induction rs as [|e rs IH]; intros t H.
  - now destruct t.
  - cbn [map length alternating] in H. injection H as He H.
    destruct (IH _ H) as [Ia Ib].
    unfold labelled in *. cbn [filter length]. rewrite He.
    destruct t; cbn [negb] in Ia, Ib.
    + change (pystr_eqb output_a output_a) with true.
      change (pystr_eqb output_a output_b) with false.
      cbn [length]. rewrite Ia, Ib. split; [|reflexivity].
      now destruct (length rs).
    + change (pystr_eqb output_b output_a) with false.
      change (pystr_eqb output_b output_b) with true.
      cbn [length]. rewrite Ia, Ib. split; [reflexivity|].
      now destruct (length rs).
Qed.

Lemma arranged_written (ds : list json) : forall t rs,
  arranged t ds rs -> exists ds', arranged t ds' (written rs).
Proof.
  induction ds as [|d ds IH]; intros t [|r rs] H; simpl in H;
    try contradiction; [now exists []|].
  destruct H as [Hd H]. cbn [written].
  destruct (encodable (json_dumps r ++ [newline])); [|now exists []].
  destruct (IH _ _ H) as [ds' A]. exists (d :: ds'). now split.
Qed.

Lemma emitted_arranged (infile : list pystr) :
  exists ds, arranged true ds (emitted json_loads infile).
Proof.
  unfold emitted.
  destruct (collect json_loads infile) as [[records log]|e] eqn:R.
  - destruct (collect_inv _ R) as (_ & A & _).
    exact (arranged_written _ _ _ A).
  - now exists [].
Qed.

(** X9: the two positions are used evenly: of the [n] records of a run,
    the chosen text is at position a in the first, the third, ... that is
    in [n/2] rounded up, and at position b in [n/2] rounded down. *)
Theorem positions_are_balanced (infile : list pystr) :
  let records := emitted json_loads infile in
  length (labelled output_a records) = Nat.div2 (S (length records))
  /\ length (labelled output_b records) = Nat.div2 (length records)
  /\ length (labelled output_a records) + length (labelled output_b records)
     = length records.
Proof.
  intros records. destruct (emitted_arranged infile) as [ds A].
  fold records in A.
  destruct (labelled_alternating records true (arranged_labels _ _ _ A))
    as [Ha Hb].
  rewrite Ha, Hb. repeat split.
  generalize (length records). intros n.
  induction n as [n IH] using (well_founded_induction lt_wf).
  destruct n as [|[|n]]; [reflexivity | reflexivity|].
  cbn [Nat.div2]. specialize (IH n ltac:(lia)). cbn [Nat.div2] in IH. lia.
Qed.

(** X10: files can be joined when the first one gives an even number of
    records: the run over the joined file writes the records of the first
    run followed by those of the second, and the messages of the second
    part with their line numbers moved on. *)
Theorem runs_concatenate (infile1 infile2 : list pystr)
  (records1 records2 : list entry) (log1 log2 : list pystr) :
  process_file json_loads infile1 = Ok (records1, log1) ->
  process_file json_loads infile2 = Ok (records2, log2) ->
  Nat.even (length records1) = true ->
  process_file json_loads (infile1 ++ infile2)
  = Ok (records1 ++ records2,
        log1 ++ warnings json_loads (S (length infile1)) infile2).
Proof.
  intros R1 R2 Ev.
  destruct (process_file_inv _ R1) as (F1 & A1 & ->).
  destruct (process_file_inv _ R2) as (F2 & A2 & _).
  apply process_file_completes in R1 as [_ W1].
  apply process_file_completes in R2 as [_ W2].
  destruct (collect_ok json_loads (infile1 ++ infile2))
    as (records & R & A).
  { rewrite decoded_app. apply Forall_app.
    rewrite forallb_forall in F1, F2. split; now apply Forall_forall. }
  assert (E : records = records1 ++ records2).
  { rewrite decoded_app in A.
    refine (arranged_functional _ _ _ _ A _).
    apply arranged_app; [exact A1|]. now rewrite Ev. }
  apply process_file_completes. subst records. split.
  - rewrite R. do 2 f_equal. rewrite warnings_app. now rewrite Nat.add_1_r.
  - now rewrite write_entries_app, W1, W2.
Qed.

End Runs.

Lemma run_accounts_for_every_line_witness :
  length (emitted sample_loads sample_file) + 1 + 1 = 5
  /\ In (skipped_message 3 (strip cut_line))
        [skipped_message 3 (strip cut_line)].
Proof.
  destruct (@run_accounts_for_every_line sample_loads sample_file
              (emitted sample_loads sample_file)
              [skipped_message 3 (strip cut_line)])
    as (Total & _ & Msg).
  - vm_compute. reflexivity.
  - split; [exact Total|]. exact (Msg 2 cut_line eq_refl eq_refl).
Defined.

Lemma records_depend_on_decoded_lines_witness :
  emitted sample_loads sample_file
  = emitted sample_loads [haiku_line "1"; haiku_line "0"; bare_line].
Proof.
  apply records_depend_on_decoded_lines. reflexivity.
Defined.

Lemma runs_concatenate_witness :
  process_file sample_loads
    ([haiku_line "1"; cut_line; haiku_line "0"] ++ [cut_line; bare_line])
  = Ok (emitted sample_loads [haiku_line "1"; cut_line; haiku_line "0"]
          ++ emitted sample_loads [cut_line; bare_line],
        [skipped_message 2 (strip cut_line)]
          ++ [skipped_message 4 (strip cut_line)]).
Proof.
  apply (@runs_concatenate sample_loads
           [haiku_line "1"; cut_line; haiku_line "0"] [cut_line; bare_line]
           (emitted sample_loads [haiku_line "1"; cut_line; haiku_line "0"])
           (emitted sample_loads [cut_line; bare_line])
           [skipped_message 2 (strip cut_line)]
           [skipped_message 1 (strip cut_line)]).
  - vm_compute. reflexivity.
  - vm_compute. reflexivity.
  - reflexivity.
Defined.

(** ** The flag, the toggle and the extracted turn *)

(** X11: where the two fields of a record end up.  The stripped [chosen]
    field of the line stands at position a exactly when the toggle and
    the flag test [results == 0] differ; the label follows the toggle
    alone, so the labelled position holds the [chosen] field of the line
    unless the flag is 0, and then it holds the [rejected] field. *)
Theorem fields_land_by_toggle_and_flag (toggle : bool)
  (items : list (pystr * json)) (s : slots) :
  arrange toggle (JDict items) = Ok s ->
  let chosen := remove_templates (field_text (JDict items) (lit "chosen")) in
  let rejected :=
    remove_templates (field_text (JDict items) (lit "rejected")) in
  let flag := eq_zero (results_flag (JDict items)) in
  a_text s = (if xorb toggle flag then chosen else rejected)
  /\ b_text s = (if xorb toggle flag then rejected else chosen)
  /\ output_label s = (if toggle then output_a else output_b)
  /\ (if toggle then a_text s else b_text s)
     = (if flag then rejected else chosen).
Proof.
  intros A chosen rejected flag.
  rewrite (arrange_slots _ _ A). unfold corrected, correct_pair.
  fold chosen rejected flag.
  destruct toggle, flag; repeat split.
Qed.

Lemma fields_land_by_toggle_and_flag_witness :
  a_text (place false (lit "Write a haiku.") (lit "B") (lit "A")) = lit "A"
  /\ output_label (place false (lit "Write a haiku.") (lit "B") (lit "A"))
     = output_b.
Proof.
  destruct (@fields_land_by_toggle_and_flag false
              [(lit "prompt", JStr haiku_prompt);
               (lit "chosen", JStr (lit "<|x|>A<|/x|>"));
               (lit "rejected", JStr (lit "<|x|>B<|/x|>"));
               (lit "results", JInt 0)]
              (place false (lit "Write a haiku.") (lit "B") (lit "A"))
              eq_refl) as (Ha & _ & Hl & _).
  split; [exact Ha | exact Hl].
Defined.

Lemma app_same_length (a b x y : pystr) :
  length a = length b -> a ++ x = b ++ y -> a = b /\ x = y.
Proof.
  revert b. induction a as [|c a IH]; intros [|d b] L E; try discriminate.
  - now split.
  - cbn [app] in E. injection E as -> E. injection L as L.
    destruct (IH b L E) as [-> ->]. now split.
Qed.

(** X12: the instruction is the stripped text of the first user turn:
    the text between the first user-turn opening of the prompt and the
    first end of turn after it.  Later user turns are not read. *)
Theorem instruction_is_first_user_turn (prompt pre mid post : pystr) :
  prompt = pre ++ user_open ++ mid ++ eot ++ post ->
  (forall a b, prompt = a ++ user_open ++ b -> length pre <= length a) ->
  (forall m b, mid ++ eot ++ post = m ++ eot ++ b -> length mid <= length m) ->
  extract_instruction prompt = remove_templates mid.
Proof.
  intros E First Close. unfold extract_instruction.
  destruct (search_instruction prompt) as [g|] eqn:S.
  - f_equal.
    destruct (search_instruction_some _ S) as (pre0 & post0 & E0 & Min).
    destruct (Min pre mid post E) as [Le Sh].
    pose proof (First pre0 (g ++ eot ++ post0) E0) as Ge.
    assert (L : length pre0 = length pre) by lia.
    rewrite E in E0.
    destruct (app_same_length _ _ _ _ (eq_sym L) E0) as [-> E1].
    apply app_inv_head in E1.
    pose proof (Close g post0 E1) as Le'.
    specialize (Sh eq_refl).
    assert (Lg : length g = length mid) by lia.
    now destruct (app_same_length _ _ _ _ Lg (eq_sym E1)).
  - exfalso. exact (search_instruction_none S _ _ _ E).
Qed.

Lemma instruction_is_first_user_turn_witness :
  extract_instruction
    (user_open ++ lit " Hi " ++ eot ++ user_open ++ lit "again" ++ eot)
  = lit "Hi".
Proof.
  rewrite (@instruction_is_first_user_turn _ [] (lit " Hi ")
             (user_open ++ lit "again" ++ eot)); [reflexivity | reflexivity | |].
  - intros a b _. simpl. lia.
  - intros m b E.
    do 4 (destruct m as [|? m]; [vm_compute in E; discriminate|]).
    simpl. lia.
Defined.

(** ** The output file *)

Lemma hex_digit_bounds (n : N) :
  (n < 16)%N -> (48 <= hex_digit n < 128)%N /\ unhex (hex_digit n) = n.
Proof.
  intros H. unfold hex_digit, unhex.
  destruct (N.ltb_spec n 10).
  - destruct (N.ltb_spec (48 + n) 58); lia.
  - destruct (N.ltb_spec (87 + n) 58); lia.
Qed.

Lemma control_digits (c : char) :
  (c < 32)%N ->
  (c / 16 < 16)%N /\ (c mod 16 < 16)%N /\ (16 * (c / 16) + c mod 16)%N = c.
Proof.
  intros H.
  pose proof (N.div_mod c 16 ltac:(lia)).
  pose proof (N.mod_lt c 16 ltac:(lia)).
  assert (c / 16 < 2)%N by (apply N.Div0.div_lt_upper_bound; lia).
  lia.
Qed.

(** A character is written as it is, or as a backslash followed by
    printable ASCII. *)
Lemma escape_char_cases (c : char) :
  (escape_char c = [c] /\ (32 <= c)%N /\ c <> 34%N /\ c <> 92%N)
  \/ ((c < 32 \/ c = 34 \/ c = 92)%N
      /\ exists d rest, escape_char c = backslash :: d :: rest
                        /\ Forall (fun x => (32 <= x < 128)%N) (d :: rest)).
Proof.
  unfold escape_char, backslash.
  destruct (N.eqb_spec c 34) as [->|N34];
    [right; split; [lia|]; do 2 eexists; split; [reflexivity|];
     repeat constructor; lia|].
  destruct (N.eqb_spec c 92) as [->|N92];
    [right; split; [lia|]; do 2 eexists; split; [reflexivity|];
     repeat constructor; lia|].
  destruct (N.ltb_spec c 32) as [Lt|Ge].
  - right. split; [lia|].
    destruct (control_digits Lt) as (Hh & Hl & _).
    destruct (hex_digit_bounds Hh) as [Bh _].
    destruct (hex_digit_bounds Hl) as [Bl _].
    repeat match goal with
           | |- context [(c =? ?b)%N] => destruct (N.eqb_spec c b)
           end;
      do 2 eexists; (split; [reflexivity|]); repeat constructor; lia.
  - left.
    repeat match goal with
           | |- context [(c =? ?b)%N] =>
               destruct (N.eqb_spec c b); [lia|]
           end.
    repeat split; assumption.
Qed.

Lemma escape_forall (P : char -> Prop) (s : pystr) :
  (forall x, (32 <= x < 128)%N -> P x) ->
  Forall (fun c => (32 <= c)%N -> P c) s ->
  Forall P (flat_map escape_char s).
Proof.
  intros Ascii H. induction H as [|c s Hc _ IH]; [constructor|].
  cbn [flat_map]. apply Forall_app. split; [|exact IH].
  destruct (escape_char_cases c) as [(E & Ge & _) | (_ & d & rest & E & F)];
    rewrite E.
  - constructor; [now apply Hc | constructor].
  - constructor; [apply Ascii; unfold backslash; lia|].
    eapply Forall_impl; [|exact F]. exact Ascii.
Qed.

Lemma lit_forall (P : char -> Prop) (s : string) :
  (forall x, (32 <= x < 128)%N -> P x) ->
  forallb (fun x => (32 <=? x) && (x <? 128))%N (lit s) = true ->
  Forall P (lit s).
Proof.
  intros Ascii H. rewrite forallb_forall in H. apply Forall_forall.
  intros x I. apply Ascii. specialize (H x I).
  apply andb_prop in H as [H1 H2].
  apply N.leb_le in H1. apply N.ltb_lt in H2. lia.
Qed.

Lemma dumps_str_forall (P : char -> Prop) (s : pystr) :
  (forall x, (32 <= x < 128)%N -> P x) ->
  Forall (fun c => (32 <= c)%N -> P c) s ->
  Forall P (dumps_str s).
Proof.
  intros Ascii H. unfold dumps_str, dquote.
  constructor; [apply Ascii; lia|].
  apply Forall_app. split; [now apply escape_forall|].
  constructor; [apply Ascii; lia | constructor].
Qed.

(** A property of printable ASCII and of the characters of the four
    fields holds of every character of the serialised record. *)
Lemma json_dumps_forall (P : char -> Prop) (e : entry) :
  (forall x, (32 <= x < 128)%N -> P x) ->
  Forall (fun c => (32 <= c)%N -> P c) (instruction e) ->
  Forall (fun c => (32 <= c)%N -> P c) (input e) ->
  Forall (fun c => (32 <= c)%N -> P c) (system e) ->
  Forall (fun c => (32 <= c)%N -> P c) (output e) ->
  Forall P (json_dumps e).
Proof.
  intros Ascii Hi Hn Hs Ho. unfold json_dumps.
  repeat (apply Forall_app; split);
    match goal with
    | |- Forall _ (lit _) => apply lit_forall; [exact Ascii | reflexivity]
    | |- Forall _ (dumps_str (lit _)) =>
        apply dumps_str_forall;
        [exact Ascii
        |apply lit_forall; [intros x Hx _; now apply Ascii | reflexivity]]
    | |- Forall _ (dumps_str _) => apply dumps_str_forall; assumption
    end.
Qed.

Lemma json_dumps_printable (e : entry) :
  Forall (fun x => (32 <= x)%N) (json_dumps e).
Proof.
  apply json_dumps_forall; try (intros x H; lia);
    apply Forall_forall; intros x _ H; exact H.
Qed.

Lemma lines_of_line (l text : pystr) :
  ~ In newline l -> lines_of (l ++ newline :: text) = l :: lines_of text.
Proof.
  induction l as [|c l IH]; intros N.
  - reflexivity.
  - cbn [app lines_of]. unfold char_eqb.
    destruct (N.eqb_spec c newline) as [E|_]; [exfalso; apply N; now left|].
    rewrite IH; [reflexivity|]. intros I. apply N. now right.
Qed.

(** X13: when the writing loop ends without raising, the file has one
    line per record: read back line by line it gives the serialised
    records in order.  No record is split over lines, for a serialised
    record holds no control character, whatever the texts hold. *)
Theorem output_file_one_line_per_record (output_data : list entry) :
  snd (write_entries output_data) = false ->
  lines_of (fst (write_entries output_data)) = map json_dumps output_data
  /\ Forall (fun e => Forall (fun x => (32 <= x)%N) (json_dumps e))
            output_data.
Proof.
  intros H. split.
  - induction output_data as [|e rest IH]; [reflexivity|].
    cbn [write_entries map] in *.
    destruct (encodable (json_dumps e ++ [newline])); [|discriminate].
    destruct (write_entries rest) as [text raised]. cbn [fst snd] in *.
    rewrite lines_of_line, (IH H); [reflexivity|].
    intros I. pose proof (json_dumps_printable e) as F.
    rewrite Forall_forall in F. specialize (F _ I). unfold newline in F. lia.
  - apply Forall_forall. intros e _. apply json_dumps_printable.
Qed.

Lemma output_file_one_line_per_record_witness :
  lines_of (fst (write_entries (emitted sample_loads sample_file)))
  = map json_dumps (emitted sample_loads sample_file).
Proof.
  apply output_file_one_line_per_record. vm_compute. reflexivity.
Defined.

Lemma encodable_app (a b : pystr) :
  encodable (a ++ b) = encodable a && encodable b.
Proof. apply forallb_app. Qed.

Lemma encodable_ascii (l : pystr) :
  Forall (fun x => (32 <= x < 128)%N) l -> encodable l = true.
Proof.
  intros F. apply forallb_forall. intros x I.
  rewrite Forall_forall in F. specialize (F x I). unfold surrogate.
  destruct (N.leb_spec 55296 x); [lia | reflexivity].
Qed.

Lemma encodable_escape_char (c : char) :
  encodable (escape_char c) = negb (surrogate c).
Proof.
  destruct (escape_char_cases c) as [(E & _) | (S & d & rest & E & F)];
    rewrite E.
  - cbn [encodable forallb]. apply andb_true_r.
  - rewrite (encodable_ascii (l := backslash :: d :: rest)).
    + unfold surrogate. destruct (N.leb_spec 55296 c); [lia | reflexivity].
    + constructor; [unfold backslash; lia | exact F].
Qed.

Lemma encodable_dumps_str (s : pystr) : encodable (dumps_str s) = encodable s.
Proof.
  unfold dumps_str.
  change (encodable (dquote :: flat_map escape_char s ++ [dquote]))
    with (encodable (flat_map escape_char s ++ [dquote])).
  rewrite encodable_app.
  change (encodable [dquote]) with true. rewrite andb_true_r.
  induction s as [|c s IH]; [reflexivity|].
  cbn [flat_map]. rewrite encodable_app, encodable_escape_char, IH.
  reflexivity.
Qed.

Lemma encodable_line (e : entry) :
  encodable (json_dumps e ++ [newline]) = encodable_entry e.
Proof.
  unfold json_dumps, encodable_entry.
  rewrite !encodable_app, !encodable_dumps_str.
  repeat match goal with
         | |- context [encodable (lit ?s)] =>
             change (encodable (lit s)) with true
         end.
  change (encodable [newline]) with true.
  cbn [andb]. rewrite !andb_true_r, !andb_assoc. reflexivity.
Qed.

(** X14: the writing loop raises exactly when a record holds a surrogate
    code point in one of its texts, which UTF-8 cannot encode; the file
    then holds the lines of the records before the first such record and
    nothing after. *)
Theorem write_raises_on_surrogate (output_data : list entry) :
  snd (write_entries output_data)
  = negb (forallb encodable_entry output_data)
  /\ forall before e after,
       output_data = before ++ e :: after ->
       forallb encodable_entry before = true ->
       encodable_entry e = false ->
       fst (write_entries output_data) = fst (write_entries before)
       /\ snd (write_entries before) = false.
Proof.
  split.
  - induction output_data as [|e rest IH]; [reflexivity|].
    cbn [write_entries forallb]. rewrite encodable_line.
    destruct (encodable_entry e); [|reflexivity].
    destruct (write_entries rest) as [text raised]. exact IH.
  - intros before e after -> B E.
    induction before as [|b before IH].
    + cbn [app write_entries]. rewrite encodable_line, E. now split.
    + cbn [forallb] in B. apply andb_prop in B as [Hb B].
      cbn [app write_entries]. rewrite encodable_line, Hb.
      destruct (IH B) as [I1 I2].
      destruct (write_entries (before ++ e :: after)) as [text raised].
      destruct (write_entries before) as [text' raised'].
      cbn [fst snd] in *. now subst.
Qed.

Lemma write_raises_on_surrogate_witness :
  write_entries
    [output_entry (place true [] (lit "A") (lit "B"));
     output_entry (place false [] [55357%N] (lit "B"));
     output_entry (place true [] (lit "C") (lit "D"))]
  = (json_dumps (output_entry (place true [] (lit "A") (lit "B")))
       ++ [newline], true).
Proof.
  pose (rs := [output_entry (place true [] (lit "A") (lit "B"));
               output_entry (place false [] [55357%N] (lit "B"));
               output_entry (place true [] (lit "C") (lit "D"))]).
  destruct (write_raises_on_surrogate rs) as [R P].
  destruct (P [output_entry (place true [] (lit "A") (lit "B"))]
              (output_entry (place false [] [55357%N] (lit "B")))
              [output_entry (place true [] (lit "C") (lit "D"))]
              eq_refl eq_refl eq_refl) as [F _].
  fold rs. destruct (write_entries rs) as [text raised].
  cbn [fst snd] in *. rewrite R, F. reflexivity.
Defined.

Lemma unescape_escape (c : char) (r : pystr) :
  unescape_head (escape_char c ++ r) = Some (c, r).
Proof.
  unfold escape_char, backslash.
  destruct (N.eqb_spec c 34) as [->|N34]; [reflexivity|].
  destruct (N.eqb_spec c 92) as [->|N92]; [reflexivity|].
  destruct (N.eqb_spec c 10) as [->|N10]; [reflexivity|].
  destruct (N.eqb_spec c 13) as [->|N13]; [reflexivity|].
  destruct (N.eqb_spec c 9) as [->|N9]; [reflexivity|].
  destruct (N.eqb_spec c 8) as [->|N8]; [reflexivity|].
  destruct (N.eqb_spec c 12) as [->|N12]; [reflexivity|].
  destruct (N.ltb_spec c 32) as [Lt|Ge].
  - destruct (control_digits Lt) as (Hh & Hl & E).
    destruct (hex_digit_bounds Hh) as [_ Uh].
    destruct (hex_digit_bounds Hl) as [_ Ul].
    cbn [app unescape_head N.eqb Pos.eqb]. now rewrite Uh, Ul, E.
  - cbn [app unescape_head].
    destruct (N.eqb_spec c 92); [contradiction|].
    destruct (N.eqb_spec c 34); [contradiction | reflexivity].
Qed.

(** Two escaped texts that agree up to a closing quote are the same
    text. *)
Lemma escape_injective (s : pystr) : forall t r r',
  flat_map escape_char s ++ dquote :: r
  = flat_map escape_char t ++ dquote :: r' ->
  s = t /\ r = r'.
Proof.
  induction s as [|c s IH]; intros [|d t] r r' E.
  - cbn [flat_map app] in E. now injection E.
  - apply (f_equal unescape_head) in E. cbn [flat_map] in E.
    rewrite <- app_assoc, unescape_escape in E. discriminate.
  - apply (f_equal unescape_head) in E. cbn [flat_map] in E.
    rewrite <- app_assoc, unescape_escape in E. discriminate.
  - apply (f_equal unescape_head) in E. cbn [flat_map] in E.
    rewrite <- !app_assoc, !unescape_escape in E.
    injection E as -> E. destruct (IH _ _ _ E) as [-> ->]. now split.
Qed.

Lemma dumps_str_injective (s t r r' : pystr) :
  dumps_str s ++ r = dumps_str t ++ r' -> s = t /\ r = r'.
Proof.
  unfold dumps_str. cbn [app]. rewrite <- !app_assoc. cbn [app].
  intros E. injection E as E. exact (escape_injective _ _ _ _ E).
Qed.

(** X15: the serialisation loses nothing: two records with the same
    line are the same record. *)
Theorem json_dumps_injective (e e' : entry) :
  json_dumps e = json_dumps e' -> e = e'.
Proof.
  unfold json_dumps. intros E.
  do 3 apply app_inv_head in E. apply dumps_str_injective in E as [Ei E].
  do 3 apply app_inv_head in E. apply dumps_str_injective in E as [En E].
  do 3 apply app_inv_head in E. apply dumps_str_injective in E as [Es E].
  do 3 apply app_inv_head in E. apply dumps_str_injective in E as [Eo _].
  destruct e, e'. cbn in *. now subst.
Qed.

Lemma json_dumps_injective_witness :
  output_entry (place true (lit "Write a haiku.") (lit "A") (lit "B"))
  = output_entry (place true (lit "Write a haiku.") (lit "A") (lit "B")).
Proof.
  apply json_dumps_injective. reflexivity.
Defined.

(** ** More on the benchmark *)


Lemma combine_balanced (a b c d : list score) :
  length a = length b ->
  combine (a ++ c) (b ++ d) = combine a b ++ combine c d.
Proof.
  revert b. induction a as [|x a IH]; intros [|y b] L; try discriminate.
  - reflexivity.
  - cbn [app combine]. f_equal. apply IH. now injection L.
Qed.

Section Benchmark.

Variable text : Type.
Variable reward_pipe : list text -> rewards.


(** X17: a run that ends with an exception, whichever it is, leaves the
    files as they were: no summary and no score file is written or
    removed. *)
Theorem failure_writes_nothing (a : args) (custom_dialogue : bool)
  (dataloader : list (batch text)) (fs : filesystem) (e : bench_exn) :
  snd (main reward_pipe a custom_dialogue dataloader fs) = Some e ->
  fst (main reward_pipe a custom_dialogue dataloader fs) = fs.
Proof.
  unfold main. destruct custom_dialogue; [reflexivity|].
  destruct (run_inference reward_pipe dataloader empty_tally) as [x|t];
    [reflexivity|].
  destruct (true_div (sum (results t)) (Z.of_nat (length (results t))));
    [reflexivity|].
  rewrite dirname_all_path.
  destruct (makedirs (dirname (summary_path a))); [reflexivity|].
  destruct (save_all a); discriminate.
Qed.

(** X18: [main] touches its own two files only: every other path holds
    after the run what it held before, and without [--save_all] so does
    the path of the score file. *)
Theorem main_touches_only_its_files (a : args) (custom_dialogue : bool)
  (dataloader : list (batch text)) (fs : filesystem) (path : string) :
  path <> summary_path a ->
  (save_all a = true -> path <> all_path a) ->
  lookup path (fst (main reward_pipe a custom_dialogue dataloader fs))
  = lookup path fs.
Proof.
  intros Ns Na. unfold main. destruct custom_dialogue; [reflexivity|].
  destruct (run_inference reward_pipe dataloader empty_tally) as [x|t];
    [reflexivity|].
  destruct (true_div (sum (results t)) (Z.of_nat (length (results t))));
    [reflexivity|].
  rewrite dirname_all_path.
  destruct (makedirs (dirname (summary_path a))); [reflexivity|].
  assert (S : String.eqb (summary_path a) path = false)
    by (apply String.eqb_neq; congruence).
  destruct (save_all a); cbn [fst].
  - rewrite lookup_write_other, lookup_write_other; [reflexivity | exact S|].
    apply String.eqb_neq. specialize (Na eq_refl). congruence.
  - now rewrite lookup_write_other.
Qed.

Lemma run_inference_scores (dataloader : list (batch text)) : forall t t',
  run_inference reward_pipe dataloader t = inr t' ->
  forallb (balanced reward_pipe) dataloader = true ->
  length (scores_chosen t) = length (scores_rejected t) ->
  length (scores_chosen t') = length (scores_rejected t')
  /\ combine (scores_chosen t') (scores_rejected t')
     = combine (scores_chosen t) (scores_rejected t)
         ++ all_pairs reward_pipe dataloader.
Proof.
  induction dataloader as [|b rest IH]; intros t t' R B L.
  - injection R as <-. cbn. now rewrite app_nil_r.
  - cbn [run_inference forallb] in R, B. apply andb_prop in B as [Bb B].
    unfold all_pairs. cbn [flat_map]. unfold batch_pairs at 1.
    unfold balanced in Bb.
    destruct (score_batch reward_pipe b) as [x|[cs rs]]; [discriminate|].
    apply Nat.eqb_eq in Bb.
    destruct (IH _ _ R B) as [L' C'].
    { cbn [scores_chosen scores_rejected]. rewrite !length_app. lia. }
    split; [exact L'|]. rewrite C'. cbn [scores_chosen scores_rejected].
    rewrite (combine_balanced _ _ _ _ L). now rewrite <- app_assoc.
Qed.

(** X19: when the pipeline gives every batch as many rejected scores as
    chosen ones, the three lists of the loop stay aligned: the result at
    an index is that of the chosen and the rejected score at the same
    index of the two score lists, over the whole data set. *)
Theorem scores_stay_aligned (dataloader : list (batch text)) (t : tally) :
  forallb (balanced reward_pipe) dataloader = true ->
  run_inference reward_pipe dataloader empty_tally = inr t ->
  combine (scores_chosen t) (scores_rejected t)
    = all_pairs reward_pipe dataloader
  /\ results t = map indicator (combine (scores_chosen t) (scores_rejected t))
  /\ length (scores_chosen t) = length (results t)
  /\ length (scores_rejected t) = length (results t).
Proof.
  intros B R.
  destruct (run_inference_scores _ _ R B eq_refl) as [L C].
  cbn in C. pose proof (run_inference_results _ _ _ R) as E. cbn in E.
  rewrite C, E. split; [reflexivity|]. split; [reflexivity|].
  rewrite length_map, <- C, length_combine. lia.
Qed.

End Benchmark.


Lemma failure_writes_nothing_witness :
  fst (main sample_pipe sample_args false [] [("notes.txt"%string, ScoreLines [])])
  = [("notes.txt"%string, ScoreLines [])].
Proof.
  apply (@failure_writes_nothing string sample_pipe sample_args false []
           [("notes.txt"%string, ScoreLines [])] ZeroDivisionError).
  reflexivity.
Defined.

Lemma main_touches_only_its_files_witness :
  lookup "notes.txt"
    (fst (main sample_pipe sample_args false sample_dataloader
            [("notes.txt"%string, ScoreLines [])]))
  = Some (ScoreLines []).
Proof.
  rewrite main_touches_only_its_files; [reflexivity | |]; discriminate.
Defined.

Lemma scores_stay_aligned_witness :
  combine [0.9; 0.1]%float [0.2; 0.8]%float
  = all_pairs sample_pipe sample_dataloader.
Proof.
  exact (proj1 (@scores_stay_aligned string sample_pipe sample_dataloader
                  {| results := [1; 0]%Z;
                     scores_chosen := [0.9; 0.1]%float;
                     scores_rejected := [0.2; 0.8]%float |}
                  eq_refl eq_refl)).
Defined.

(** ** Comparing two scores *)

Lemma SFltb_asym (f1 f2 : SpecFloat.spec_float) :
  SpecFloat.SFltb f1 f2 = true -> SpecFloat.SFltb f2 f1 = false.
Proof.
  unfold SpecFloat.SFltb, SpecFloat.SFcompare.
  destruct f1 as [s1|s1| |s1 m1 e1], f2 as [s2|s2| |s2 m2 e2];
    try destruct s1; try destruct s2; try discriminate; try reflexivity.
  all: rewrite (Z.compare_antisym e1 e2);
    destruct (e1 ?= e2)%Z; cbn [CompOpp]; try discriminate; try reflexivity;
    change (Pos.compare_cont Eq m2 m1)
      with (Pos.compare_cont (CompOpp Eq) m2 m1);
    rewrite <- (Pos.compare_cont_antisym m1 m2 Eq);
    destruct (Pos.compare_cont Eq m1 m2); cbn [CompOpp];
    try discriminate; reflexivity.
Qed.

Lemma SFeqb_not_ltb (f1 f2 : SpecFloat.spec_float) :
  SpecFloat.SFeqb f1 f2 = true ->
  SpecFloat.SFltb f1 f2 = false /\ SpecFloat.SFltb f2 f1 = false.
Proof.
  unfold SpecFloat.SFeqb, SpecFloat.SFltb, SpecFloat.SFcompare.
  destruct f1 as [s1|s1| |s1 m1 e1], f2 as [s2|s2| |s2 m2 e2];
    try destruct s1; try destruct s2; try discriminate;
    try (intros _; split; reflexivity).
  all: rewrite (Z.compare_antisym e1 e2);
    destruct (e1 ?= e2)%Z; cbn [CompOpp]; try discriminate;
    change (Pos.compare_cont Eq m2 m1)
      with (Pos.compare_cont (CompOpp Eq) m2 m1);
    rewrite <- (Pos.compare_cont_antisym m1 m2 Eq);
    destruct (Pos.compare_cont Eq m1 m2); cbn [CompOpp];
    try discriminate; intros _; split; reflexivity.
Qed.

Lemma SFcompare_refl (f : SpecFloat.spec_float) :
  f = SpecFloat.S754_nan \/ SpecFloat.SFcompare f f = Some Eq.
Proof.
  destruct f as [s|s| |s m e]; try destruct s; cbn;
    try (now left); try (now right).
  all: right; rewrite Z.compare_refl, Pos.compare_cont_refl; reflexivity.
Qed.

(** A score that is not equal to itself is not a number. *)
Lemma is_nan_spec (x : score) :
  PrimFloat.is_nan x = true -> FloatOps.Prim2SF x = SpecFloat.S754_nan.
Proof.
  unfold PrimFloat.is_nan. rewrite FloatAxioms.eqb_spec.
  unfold SpecFloat.SFeqb. intros H.
  destruct (SFcompare_refl (FloatOps.Prim2SF x)) as [E|E]; [exact E|].
  rewrite E in H. discriminate.
Qed.

(** X20: a pair is counted for one side at most: if the chosen score
    beats the rejected one, the rejected one does not beat the chosen one.
    Two scores that are equal as numbers, among them a score and itself,
    and 0.0 and -0.0, count as a miss either way round; and so does every
    pair in which one score is not a number. *)
Theorem win_is_one_sided (chosen rejected : score) :
  (indicator (chosen, rejected) + indicator (rejected, chosen) <= 1)%Z
  /\ indicator (chosen, chosen) = 0%Z
  /\ (PrimFloat.eqb chosen rejected = true ->
      indicator (chosen, rejected) = 0%Z
      /\ indicator (rejected, chosen) = 0%Z)
  /\ (PrimFloat.is_nan chosen = true \/ PrimFloat.is_nan rejected = true ->
      indicator (chosen, rejected) = 0%Z
      /\ indicator (rejected, chosen) = 0%Z)
  /\ indicator (0%float, (-0)%float) = 0%Z
  /\ indicator ((-0)%float, 0%float) = 0%Z.
Proof.
  assert (A : forall c r, gt c r = true -> gt r c = false).
  { intros c r. unfold gt. rewrite !FloatAxioms.ltb_spec. apply SFltb_asym. }
  assert (Q : forall c r,
             PrimFloat.eqb c r = true -> gt c r = false /\ gt r c = false).
  { intros c r. unfold gt.
    rewrite FloatAxioms.eqb_spec, !FloatAxioms.ltb_spec. intros H.
    destruct (SFeqb_not_ltb _ _ H). now split. }
  assert (Nn : forall c r,
             PrimFloat.is_nan c = true \/ PrimFloat.is_nan r = true ->
             gt c r = false).
  { intros c r H. unfold gt. rewrite FloatAxioms.ltb_spec.
    unfold SpecFloat.SFltb, SpecFloat.SFcompare.
    destruct H as [H|H]; apply is_nan_spec in H; rewrite H;
      [now destruct (FloatOps.Prim2SF r) | reflexivity]. }
  unfold indicator. cbn [fst snd].
  split; [|split; [|split; [|split; [|split; reflexivity]]]].
  - destruct (gt chosen rejected) eqn:G.
    + now rewrite (A _ _ G).
    + destruct (gt rejected chosen); lia.
  - destruct (gt chosen chosen) eqn:G; [|reflexivity].
    pose proof (A _ _ G). congruence.
  - intros H. destruct (Q _ _ H) as [-> ->]. now split.
  - intros H. rewrite (Nn _ _ H).
    assert (H' : PrimFloat.is_nan rejected = true
                 \/ PrimFloat.is_nan chosen = true) by tauto.
    now rewrite (Nn _ _ H').
Qed.

Lemma win_is_one_sided_witness :
  indicator (nan, 1%float) = 0%Z /\ indicator (1%float, nan) = 0%Z.
Proof.
  destruct (win_is_one_sided nan 1%float) as (_ & _ & _ & H & _).
  apply H. left. reflexivity.
Defined.

(** ** The pad token *)

(** X21: after the set-up the model has a pad token id whenever the
    tokenizer had a pad or an end-of-sequence token id; a pad token id the
    tokenizer had is kept, one it lacked becomes the end-of-sequence id,
    for the model too; and a second set-up changes nothing. *)
Theorem pad_token_set_up (ids : token_ids) :
  let ids' := set_pad_token ids in
  tokenizer_eos ids' = tokenizer_eos ids
  /\ (model_pad ids' = None <->
      tokenizer_pad ids = None /\ tokenizer_eos ids = None)
  /\ (tokenizer_pad ids' = None <-> model_pad ids' = None)
  /\ (forall p, tokenizer_pad ids = Some p -> tokenizer_pad ids' = Some p)
  /\ (tokenizer_pad ids = None ->
      tokenizer_pad ids' = tokenizer_eos ids
      /\ model_pad ids' = tokenizer_eos ids)
  /\ set_pad_token ids' = ids'.
Proof.
  destruct ids as [[p|] [e|] [m|]]; cbn;
    repeat split; intros; try discriminate; try assumption;
    try reflexivity;
    repeat match goal with
           | H : _ /\ _ |- _ => destruct H
           end; discriminate.
Qed.

Lemma pad_token_set_up_witness :
  set_pad_token {| tokenizer_pad := None;
                   tokenizer_eos := Some 2%Z;
                   model_pad := Some 0%Z |}
  = {| tokenizer_pad := Some 2%Z;
       tokenizer_eos := Some 2%Z;
       model_pad := Some 2%Z |}.
Proof.
  destruct (pad_token_set_up {| tokenizer_pad := None;
                                tokenizer_eos := Some 2%Z;
                                model_pad := Some 0%Z |})
    as (He & _ & _ & _ & Hn & _).
  destruct (Hn eq_refl) as [Hp Hm].
  destruct (set_pad_token _) as [p e m]. cbn in *. now subst.
Defined.

(** ** The assembled prompt *)

(** X22: the prompt does not delimit the two outputs.  Text that stands
    behind the heading of output (b) inside the first output reads the
    same as text before that heading inside the second one: the two
    pairs give the same prompt. *)
Theorem prompt_text_boundary_moves (instruction x y z : pystr) :
  prompt_text instruction
    (x ++ [newline; newline] ++ lit "# Output (b):" ++ newline :: y) z
  = prompt_text instruction
      x (y ++ [newline; newline] ++ lit "# Output (b):" ++ newline :: z).
Proof.
  unfold prompt_text. cbn [unlines].
  do 12 (apply f_equal2; [reflexivity|]; apply f_equal).
  cbn [app]. rewrite <- !app_assoc. reflexivity.
Qed.

(** ** Runs as a whole: labels, positions and skipped lines *)

Lemma write_entries_raised (rs : list entry) :
  snd (write_entries rs) = negb (forallb encodable_entry rs).
Proof.
  induction rs as [|e rs IH]; [reflexivity|].
  cbn [write_entries forallb]. rewrite encodable_line.
  destruct (encodable_entry e); [|reflexivity].
  destruct (write_entries rs) as [text raised]. exact IH.
Qed.

Lemma written_nth (rs : list entry) (i : nat) (r : entry) :
  nth_error (written rs) i = Some r -> nth_error rs i = Some r.
Proof.
  intros H. destruct (written_prefix rs) as [rest E].
  rewrite E, nth_error_app1; [exact H|].
  apply nth_error_Some. congruence.
Qed.

(** The record at an index comes from the decoded line at that index, and
    was placed with the toggle inverted once for each record before it. *)
Lemma arranged_nth (ds : list json) : forall t rs i r,
  arranged t ds rs ->
  nth_error rs i = Some r ->
  exists d s,
    nth_error ds i = Some d
    /\ arrange (if Nat.even i then t else negb t) d = Ok s
    /\ r = output_entry s.
Proof.
  induction ds as [|d ds IH]; intros t [|r0 rs] i r A H; simpl in A;
    try contradiction.
  - destruct i; discriminate.
  - destruct A as [(s & As & E) A]. destruct i as [|i].
    + injection H as <-. now exists d, s.
    + cbn [nth_error] in H.
      destruct (IH _ _ _ _ A H) as (d' & s' & Hd & Hs & Hr).
      exists d', s'. split; [exact Hd|]. split; [|exact Hr].
      rewrite Nat.even_succ, <- Nat.negb_even.
      destruct (Nat.even i); cbn [negb] in *;
        [exact Hs | now rewrite negb_involutive in Hs].
Qed.

Lemma unlines_app (ls1 ls2 : list pystr) :
  ls1 <> [] -> ls2 <> [] ->
  unlines (ls1 ++ ls2) = unlines ls1 ++ newline :: unlines ls2.
Proof.
  intros N1 N2. induction ls1 as [|l [|l' ls1] IH]; [contradiction| |].
  - destruct ls2; [contradiction | reflexivity].
  - change (unlines ((l :: l' :: ls1) ++ ls2))
      with (l ++ newline :: unlines ((l' :: ls1) ++ ls2)).
    rewrite IH by discriminate.
    change (unlines (l :: l' :: ls1))
      with (l ++ newline :: unlines (l' :: ls1)).
    now rewrite <- app_assoc.
Qed.

(** The prompt, heading by heading: a fixed text, the instruction, and
    each output under its own heading. *)
Lemma prompt_text_shape :
  exists rubric question : pystr,
    forall instruction a b,
      prompt_text instruction a b
      = rubric ++ lit "# Instruction:" ++ newline :: instruction
          ++ newline :: newline :: lit "# Output (a):" ++ newline :: a
          ++ newline :: newline :: lit "# Output (b):" ++ newline :: b
          ++ question.
Proof.
  eexists. eexists. intros instruction a b. unfold prompt_text.
  match goal with
  | |- unlines ?l = _ =>
      change l with (firstn 11 l ++ skipn 11 l)
  end.
  cbn [firstn skipn]. rewrite unlines_app by discriminate.
  match goal with
  | |- ?x ++ newline :: ?y = _ =>
      transitivity ((x ++ [newline]) ++ y);
        [now rewrite <- app_assoc | f_equal]
  end.
  cbn [unlines app]. reflexivity.
Qed.

Section Claims.

Variable json_loads : pystr -> option json.

(** C1: the labels of the records a run emits alternate from
    [Output (a)] on.  The record at index [i] comes from the decoded line
    at index [i] and is labelled by the parity of [i] alone.  The toggle
    starts true; the first loop appends one record for every decoded line
    and inverts the toggle once for each of them, so at its end the toggle
    is true exactly when their number is even; the file then receives
    these records, up to the first that cannot be written. *)
Theorem labels_alternate (infile : list pystr) :
  toggle initial_state = true
  /\ map output (emitted json_loads infile)
     = alternating true (length (emitted json_loads infile))
  /\ (forall i record,
        nth_error (emitted json_loads infile) i = Some record ->
        exists data s,
          nth_error (decoded json_loads infile) i = Some data
          /\ arrange (Nat.even i) data = Ok s
          /\ record = output_entry s
          /\ output record = if Nat.even i then output_a else output_b)
  /\ match process_lines json_loads 1 infile initial_state with
     | Ok st =>
         length (output_data st) = length (decoded json_loads infile)
         /\ map output (output_data st)
            = alternating true (length (decoded json_loads infile))
         /\ toggle st = Nat.even (length (decoded json_loads infile))
         /\ emitted json_loads infile = written (output_data st)
     | Raise _ => emitted json_loads infile = []
     end.
Proof.
  split; [reflexivity|]. split; [|split].
  - destruct (emitted_arranged json_loads infile) as [ds A].
    exact (arranged_labels _ _ _ A).
  - intros i record H. unfold emitted in H.
    destruct (collect json_loads infile) as [[records log]|e] eqn:R;
      [|destruct i; discriminate].
    destruct (collect_inv json_loads _ R) as (_ & A & _).
    apply written_nth in H.
    destruct (arranged_nth _ _ _ _ A H) as (d & s & Hd & Hs & Hr).
    assert (T : (if Nat.even i then true else negb true) = Nat.even i)
      by now destruct (Nat.even i).
    rewrite T in Hs. exists d, s. repeat split; try assumption.
    rewrite Hr. cbn [output output_entry].
    rewrite (arrange_slots _ _ Hs). apply place_label.
  - unfold emitted, collect.
    destruct (process_lines json_loads 1 infile initial_state)
      as [st|e] eqn:R; cbn [bind]; [|reflexivity].
    destruct (process_lines_shape json_loads _ _ _ R) as (rs & O & A & T & _).
    cbn in O, A, T. rewrite O, T, <- (arranged_length _ _ _ A).
    repeat split.
    + exact (arranged_labels _ _ _ A).
    + now destruct (Nat.even (length rs)).
Qed.

(** C2: the prompt of every record in the file has the instruction under
    [# Instruction:] and the two texts under [# Output (a):] and
    [# Output (b):], between a fixed opening and a fixed closing text.
    The text under the heading that the [output] field names is the
    corrected chosen text of the decoded line the record comes from, and
    the text under the other heading is its corrected rejected text.  A
    run that completes has written one such record for each decoded
    line. *)
Theorem label_names_chosen (infile : list pystr) :
  exists rubric question : pystr,
    (forall i record,
       nth_error (emitted json_loads infile) i = Some record ->
       exists data,
         nth_error (decoded json_loads infile) i = Some data
         /\ let instr :=
              extract_instruction (field_text data (lit "prompt")) in
            let chosen_text := fst (corrected data) in
            let rejected_text := snd (corrected data) in
            (output record = output_a
             /\ instruction record
                = rubric ++ lit "# Instruction:" ++ newline :: instr
                    ++ newline :: newline
                    :: lit "# Output (a):" ++ newline :: chosen_text
                    ++ newline :: newline
                    :: lit "# Output (b):" ++ newline :: rejected_text
                    ++ question)
            \/ (output record = output_b
                /\ instruction record
                   = rubric ++ lit "# Instruction:" ++ newline :: instr
                       ++ newline :: newline
                       :: lit "# Output (a):" ++ newline :: rejected_text
                       ++ newline :: newline
                       :: lit "# Output (b):" ++ newline :: chosen_text
                       ++ question))
    /\ forall records log,
         process_file json_loads infile = Ok (records, log) ->
         emitted json_loads infile = records
         /\ length records = length (decoded json_loads infile).
Proof.
  destruct prompt_text_shape as (rubric & question & Shape).
  exists rubric, question. split.
  - intros i record H. unfold emitted in H.
    destruct (collect json_loads infile) as [[records log]|e] eqn:R;
      [|destruct i; discriminate].
    destruct (collect_inv json_loads _ R) as (_ & A & _).
    apply written_nth in H.
    destruct (arranged_nth _ _ _ _ A H) as (d & s & Hd & Hs & Hr).
    exists d. split; [exact Hd|]. cbv zeta.
    rewrite Hr, (arrange_slots _ _ Hs). cbn [instruction output output_entry].
    destruct (Nat.even i); cbn [negb place instruction_text a_text b_text
                                 output_label];
      [left | right]; (split; [reflexivity | apply Shape]).
  - intros records log R. split.
    + exact (emitted_completed json_loads _ R).
    + apply (process_file_completes json_loads) in R as [C _].
      destruct (collect_inv json_loads _ C) as (_ & A & _).
      exact (arranged_length _ _ _ A).
Qed.

(** C7: a line that does not decode is skipped: the loop prints one
    message, made of the number of the line and of its text with the
    surrounding white space stripped, and leaves the records and the
    toggle as they were.  A file of well-formed lines with one malformed
    line among them collects the records of the file without that line,
    one for each of its lines and in their order, and prints that one
    message.  The run writes them all and completes when every record
    can be written as UTF-8; otherwise it raises [UnicodeEncodeError]
    with fewer records in the file.  Either way the file holds what it
    would hold without the malformed line. *)
Theorem skip_on_error (before after : list pystr) (bad : pystr) :
  let message := fun n : nat =>
    [34892%N; 32%N] ++ str_of_nat n
      ++ [32%N; 26080%N; 25928%N; 32%N; 74%N; 83%N; 79%N; 78%N;
          65292%N; 24050%N; 36339%N; 36807%N; 58%N; 32%N]
      ++ strip bad in
  Forall (fun l => well_formed json_loads l = true) before ->
  Forall (fun l => well_formed json_loads l = true) after ->
  malformed json_loads bad = true ->
  (forall n st,
      process_line json_loads n bad st =
        Ok {| output_data := output_data st;
              toggle := toggle st;
              printed := printed st ++ [message n] |})
  /\ exists records,
       collect json_loads (before ++ bad :: after)
         = Ok (records, [message (S (length before))])
       /\ collect json_loads (before ++ after) = Ok (records, [])
       /\ length records = length before + length after
       /\ arranged true (decoded json_loads (before ++ after)) records
       /\ Forall2 (fun line data => json_loads (strip line) = Some data)
                  (before ++ after) (decoded json_loads (before ++ after))
       /\ process_file json_loads (before ++ bad :: after)
          = (if forallb encodable_entry records
             then Ok (records, [message (S (length before))])
             else Raise UnicodeEncodeError)
       /\ process_file json_loads (before ++ after)
          = (if forallb encodable_entry records
             then Ok (records, [])
             else Raise UnicodeEncodeError)
       /\ emitted json_loads (before ++ bad :: after)
          = emitted json_loads (before ++ after)
       /\ (if forallb encodable_entry records
           then emitted json_loads (before ++ bad :: after) = records
           else length (emitted json_loads (before ++ bad :: after))
                < length before + length after).
Proof.
  intros message Wb Wa M.
  assert (Msg : forall n, skipped_message n (strip bad) = message n).
  { intros n. reflexivity. }
  destruct (malformed_line json_loads _ M) as (D & Wn & L).
  split; [intros n st; rewrite <- Msg; apply L|].
  assert (Wba : Forall (fun l => well_formed json_loads l = true)
                       (before ++ after)) by (apply Forall_app; now split).
  destruct (well_formed_lines json_loads Wba) as (F2 & P & W0).
  destruct (well_formed_lines json_loads Wb) as (_ & _ & W0b).
  destruct (well_formed_lines json_loads Wa) as (_ & _ & W0a).
  assert (E : decoded json_loads (before ++ bad :: after)
              = decoded json_loads (before ++ after)).
  { change (bad :: after) with ([bad] ++ after).
    rewrite (decoded_app json_loads before ([bad] ++ after)),
      (decoded_app json_loads [bad] after).
    now rewrite D, (decoded_app json_loads before after). }
  destruct (collect_ok json_loads (before ++ after) P) as (records & R & A).
  rewrite W0 in R.
  destruct (collect_ok json_loads (before ++ bad :: after))
    as (records' & R' & A').
  { now rewrite E. }
  rewrite E in A'. rewrite (arranged_functional _ _ _ _ A' A) in R'.
  assert (Wm : warnings json_loads 1 (before ++ bad :: after)
               = [message (S (length before))]).
  { change (bad :: after) with ([bad] ++ after).
    rewrite (warnings_app json_loads before ([bad] ++ after)), W0b.
    rewrite (warnings_app json_loads [bad] after), Wn, W0a, Msg.
    cbn [app length]. now rewrite Nat.add_1_r. }
  rewrite Wm in R'.
  assert (Len : length records = length before + length after).
  { rewrite (arranged_length _ _ _ A).
    rewrite <- (Forall2_length F2). apply length_app. }
  exists records. unfold process_file, emitted. rewrite R, R'.
  cbn [bind fst]. rewrite write_entries_raised.
  destruct (forallb encodable_entry records) eqn:Enc; cbn [negb];
    repeat split; try assumption.
  - apply written_all. now rewrite write_entries_raised, Enc.
  - rewrite <- Len. apply written_short.
    now rewrite write_entries_raised, Enc.
Qed.

End Claims.

Lemma labels_alternate_witness :
  exists record,
    nth_error (emitted sample_loads sample_file) 1 = Some record
    /\ output record = output_b.
Proof.
  destruct (nth_error (emitted sample_loads sample_file) 1) as [r|] eqn:E;
    [|vm_compute in E; discriminate].
  exists r. split; [reflexivity|].
  destruct (labels_alternate sample_loads sample_file) as (_ & _ & H & _).
  destruct (H 1 r E) as (d & s & _ & _ & _ & O). exact O.
Defined.

Lemma label_names_chosen_witness :
  exists rubric question : pystr,
    map instruction (emitted sample_loads [haiku_line "0"; haiku_line "0"])
    = [rubric ++ lit "# Instruction:" ++ newline :: lit "Write a haiku."
         ++ newline :: newline :: lit "# Output (a):" ++ newline :: lit "B"
         ++ newline :: newline :: lit "# Output (b):" ++ newline :: lit "A"
         ++ question;
       rubric ++ lit "# Instruction:" ++ newline :: lit "Write a haiku."
         ++ newline :: newline :: lit "# Output (a):" ++ newline :: lit "A"
         ++ newline :: newline :: lit "# Output (b):" ++ newline :: lit "B"
         ++ question].
Proof.
  destruct (label_names_chosen sample_loads [haiku_line "0"; haiku_line "0"])
    as (rubric & question & H & _).
  exists rubric, question.
  destruct (emitted sample_loads [haiku_line "0"; haiku_line "0"])
    as [|r0 [|r1 [|r2 rs]]] eqn:E; try (vm_compute in E; discriminate).
  assert (O0 : output r0 = output_a).
  { assert (E0 : nth_error
                   (emitted sample_loads [haiku_line "0"; haiku_line "0"]) 0
                 = Some r0) by now rewrite E.
    vm_compute in E0. injection E0 as <-. reflexivity. }
  assert (O1 : output r1 = output_b).
  { assert (E1 : nth_error
                   (emitted sample_loads [haiku_line "0"; haiku_line "0"]) 1
                 = Some r1) by now rewrite E.
    vm_compute in E1. injection E1 as <-. reflexivity. }
  destruct (H 0 r0 eq_refl) as (d0 & D0 & C0).
  destruct (H 1 r1 eq_refl) as (d1 & D1 & C1).
  assert (Dd : decoded sample_loads [haiku_line "0"; haiku_line "0"]
               = [haiku_record 0; haiku_record 0])
    by (vm_compute; reflexivity).
  rewrite Dd in D0, D1. injection D0 as <-. injection D1 as <-.
  assert (I : extract_instruction (field_text (haiku_record 0) (lit "prompt"))
              = lit "Write a haiku.") by (vm_compute; reflexivity).
  assert (K : corrected (haiku_record 0) = (lit "B", lit "A"))
    by (vm_compute; reflexivity).
  cbv zeta in C0, C1. rewrite I, K in C0, C1. cbn [fst snd] in C0, C1.
  destruct C0 as [[_ C0]|[C0 _]];
    [|rewrite O0 in C0; vm_compute in C0; discriminate].
  destruct C1 as [[C1 _]|[_ C1]];
    [rewrite O1 in C1; vm_compute in C1; discriminate|].
  cbn [map]. now rewrite C0, C1.
Defined.

Lemma skip_on_error_witness :
  process_file sample_loads [haiku_line "1"; cut_line; haiku_line "0"]
  = Ok (emitted sample_loads [haiku_line "1"; haiku_line "0"],
        [[34892%N; 32%N] ++ lit "2"
           ++ [32%N; 26080%N; 25928%N; 32%N; 74%N; 83%N; 79%N; 78%N;
               65292%N; 24050%N; 36339%N; 36807%N; 58%N; 32%N]
           ++ strip cut_line]).
Proof.
  destruct (@skip_on_error sample_loads [haiku_line "1"] [haiku_line "0"]
              cut_line)
    as (_ & records & C & _ & _ & _ & _ & R & _ & Same & Em).
  - repeat constructor.
  - repeat constructor.
  - reflexivity.
  - cbv zeta in C, R. change (S (length [haiku_line "1"])) with 2 in C, R.
    change ([haiku_line "1"] ++ cut_line :: [haiku_line "0"])
      with [haiku_line "1"; cut_line; haiku_line "0"] in *.
    change ([haiku_line "1"] ++ [haiku_line "0"])
      with [haiku_line "1"; haiku_line "0"] in *.
    assert (Enc : forallb encodable_entry records = true).
    { assert (C' : collect sample_loads
                     [haiku_line "1"; cut_line; haiku_line "0"]
                   = Ok (emitted sample_loads
                           [haiku_line "1"; cut_line; haiku_line "0"],
                         [[34892%N; 32%N] ++ str_of_nat 2
                            ++ [32%N; 26080%N; 25928%N; 32%N; 74%N; 83%N;
                                79%N; 78%N; 65292%N; 24050%N; 36339%N;
                                36807%N; 58%N; 32%N]
                            ++ strip cut_line]))
        by (vm_compute; reflexivity).
      rewrite C' in C. injection C as <-. vm_compute. reflexivity. }
    rewrite Enc in R, Em. rewrite R. rewrite <- Same, Em. reflexivity.
Defined.

(** The sample record, the line cut short and a line whose [chosen] text
    is a lone surrogate: all three lines are read, the second with a
    message that carries its stripped text and not the line as read, and
    the run ends with [UnicodeEncodeError] and one record in the file,
    not two. *)
Lemma surrogate_run_is_cut_short :
  well_formed surrogate_loads (haiku_line "1") = true
  /\ malformed surrogate_loads cut_line = true
  /\ well_formed surrogate_loads surrogate_line = true
  /\ (exists records,
        collect surrogate_loads [haiku_line "1"; cut_line; surrogate_line]
        = Ok (records, [skipped_message 2 (strip cut_line)])
        /\ length records = 2)
  /\ skipped_message 2 (strip cut_line) <> skipped_message 2 cut_line
  /\ process_file surrogate_loads [haiku_line "1"; cut_line; surrogate_line]
     = Raise UnicodeEncodeError
  /\ length (emitted surrogate_loads
               [haiku_line "1"; cut_line; surrogate_line]) = 1.
Proof.
  repeat split; try (vm_compute; reflexivity).
  - eexists. split; vm_compute; reflexivity.
  - vm_compute. discriminate.
Qed.
